(** * proj-zerocode: the password manager (PodjPasswordManager/password_manager.py)

    A shallow embedding of [password_manager.py]: the credential store
    ([DatabaseManager], an SQLite file with the tables [master] and
    [passwords]), the encryption provider ([EncryptionManager], a thin wrapper
    around Fernet), and the console controller ([PasswordGenerator]).

    Python values are modelled as follows.
    - [str] is a list of code points (a Python string may hold lone
      surrogates, and [str.encode()] raises on them);
    - [bytes] is a list of [Byte.byte];
    - an operation that may raise returns a [result];
    - console input, the random source and the clock are explicit inputs. *)

From Stdlib Require Import Strings.String Strings.Ascii Strings.Byte.
From Stdlib Require Import List NArith ZArith Lia Bool.
From Stdlib Require Import Sorting.Sorted Sorting.Permutation.
Import ListNotations.

Local Open Scope N_scope.

(** ** Python values and exceptions *)

Definition str := list N.
Definition bytes := list byte.

(** A Python [str] holds code points in [range(0x110000)]. *)
Definition is_str (s : str) : Prop := Forall (fun c => c <= 0x10FFFF) s.

Definition is_surrogate (c : N) : bool := (0xD800 <=? c) && (c <=? 0xDFFF).

(** What [str.encode()] accepts: no code point of the string is a surrogate. *)
Definition encodable (s : str) : Prop :=
  Forall (fun c => is_surrogate c = false) s.

Inductive exception : Type :=
| UnicodeEncodeError
| UnicodeDecodeError
| ValueError
| EOFError
| IntegrityError          (* sqlite3.IntegrityError *)
| InvalidToken            (* cryptography.fernet.InvalidToken *)
| SystemExit (code : str).

Inductive result (A : Type) : Type :=
| Return (a : A)
| Raise (e : exception).
Arguments Return {A} a.
Arguments Raise {A} e.

Definition bind {A B} (r : result A) (k : A -> result B) : result B :=
  match r with
  | Return a => k a
  | Raise e => Raise e
  end.

Notation "x <- c ;; k" := (bind c (fun x => k))
  (at level 61, c at next level, right associativity).

Definition str_eqb (a b : str) : bool :=
  if list_eq_dec N.eq_dec a b then true else false.


(** ** The UTF-8 codec behind [str.encode()] and [bytes.decode()] *)

Module Utf8.

Definition byte_of (n : N) : byte :=
  match Byte.of_N n with
  | Some b => b
  | None => x00
  end.

(** One code point, strict error handler: surrogates are refused. *)
Definition encode_char (c : N) : result bytes :=
  if c <? 0x80 then Return [byte_of c]
  else if c <? 0x800 then
    Return [byte_of (0xC0 + c / 64); byte_of (0x80 + c mod 64)]
  else if c <? 0x10000 then
    if is_surrogate c then Raise UnicodeEncodeError
    else Return [byte_of (0xE0 + c / 4096);
                 byte_of (0x80 + (c / 64) mod 64);
                 byte_of (0x80 + c mod 64)]
  else
    Return [byte_of (0xF0 + c / 262144);
            byte_of (0x80 + (c / 4096) mod 64);
            byte_of (0x80 + (c / 64) mod 64);
            byte_of (0x80 + c mod 64)].

Fixpoint encode (s : str) : result bytes :=
  match s with
  | [] => Return []
  | c :: s' =>
      b <- encode_char c ;;
      bs <- encode s' ;;
      Return (b ++ bs)
  end.

Definition is_cont (n : N) : bool := (0x80 <=? n) && (n <=? 0xBF).

Definition push (c : N) (r : result str) : result str :=
  s <- r ;; Return (c :: s).

(** Strict decoding: overlong forms, surrogates, code points above U+10FFFF,
    stray continuation bytes and truncated sequences are all refused. *)
Fixpoint decode (bs : bytes) : result str :=
  match bs with
  | [] => Return []
  | b0 :: r0 =>
      let n0 := Byte.to_N b0 in
      if n0 <? 0x80 then push n0 (decode r0)
      else if n0 <? 0xC2 then Raise UnicodeDecodeError
      else if n0 <? 0xE0 then
        match r0 with
        | b1 :: r1 =>
            let n1 := Byte.to_N b1 in
            if is_cont n1
            then push ((n0 - 0xC0) * 64 + (n1 - 0x80)) (decode r1)
            else Raise UnicodeDecodeError
        | _ => Raise UnicodeDecodeError
        end
      else if n0 <? 0xF0 then
        match r0 with
        | b1 :: b2 :: r2 =>
            let n1 := Byte.to_N b1 in
            let n2 := Byte.to_N b2 in
            let lo := if n0 =? 0xE0 then 0xA0 else 0x80 in
            let hi := if n0 =? 0xED then 0x9F else 0xBF in
            if (lo <=? n1) && (n1 <=? hi) && is_cont n2
            then push ((n0 - 0xE0) * 4096 + (n1 - 0x80) * 64 + (n2 - 0x80))
                      (decode r2)
            else Raise UnicodeDecodeError
        | _ => Raise UnicodeDecodeError
        end
      else if n0 <? 0xF5 then
        match r0 with
        | b1 :: b2 :: b3 :: r3 =>
            let n1 := Byte.to_N b1 in
            let n2 := Byte.to_N b2 in
            let n3 := Byte.to_N b3 in
            let lo := if n0 =? 0xF0 then 0x90 else 0x80 in
            let hi := if n0 =? 0xF4 then 0x8F else 0xBF in
            if (lo <=? n1) && (n1 <=? hi) && is_cont n2 && is_cont n3
            then push ((n0 - 0xF0) * 262144 + (n1 - 0x80) * 4096
                       + (n2 - 0x80) * 64 + (n3 - 0x80))
                      (decode r3)
            else Raise UnicodeDecodeError
        | _ => Raise UnicodeDecodeError
        end
      else Raise UnicodeDecodeError
  end.

(** A source literal: the bytes of a Rocq string, read as UTF-8. *)
Definition lit (s : string) : str :=
  match decode (list_byte_of_string s) with
  | Return t => t
  | Raise _ => []
  end.

End Utf8.

Abbreviation py s := (Utf8.lit s) (only parsing).


(** ** SHA-256, as [hashlib.sha256(data).hexdigest()] computes it

    32-bit words are kept in [N], with the wrap-around of the additions
    written out. *)

Module Sha256.

Definition mask32 : N := 0xFFFFFFFF.
Definition add32 (x y : N) : N := (x + y) mod 0x100000000.
Definition rotr (n x : N) : N :=
  N.lor (N.shiftr x n) (N.land (N.shiftl x (32 - n)) mask32).
Definition xor3 (x y z : N) : N := N.lxor (N.lxor x y) z.

Definition Ch (x y z : N) : N :=
  N.lxor (N.land x y) (N.land (N.lxor x mask32) z).
Definition Maj (x y z : N) : N :=
  xor3 (N.land x y) (N.land x z) (N.land y z).
Definition Sigma0 (x : N) : N := xor3 (rotr 2 x) (rotr 13 x) (rotr 22 x).
Definition Sigma1 (x : N) : N := xor3 (rotr 6 x) (rotr 11 x) (rotr 25 x).
Definition sigma0 (x : N) : N := xor3 (rotr 7 x) (rotr 18 x) (N.shiftr x 3).
Definition sigma1 (x : N) : N := xor3 (rotr 17 x) (rotr 19 x) (N.shiftr x 10).

(** The constants of FIPS 180-4: the first 32 bits of the fractional parts of
    the cube roots (for [K]) and square roots (for [H0]) of the first primes. *)
Definition is_prime (n : nat) : bool :=
  forallb (fun d => negb (n mod d =? 0)%nat) (seq 2 (n - 2)).

Definition primes : list N := map N.of_nat (filter is_prime (seq 2 310)).

(** The integer [k]-th root of [x], bit by bit from bit [bits - 1] down. *)
Fixpoint root (k x : N) (bits : nat) (r : N) : N :=
  match bits with
  | O => r
  | S b =>
      let r' := r + 2 ^ N.of_nat b in
      if r' ^ k <=? x then root k x b r' else root k x b r
  end.

Definition fraction_of_root (k p : N) : N :=
  root k (p * 2 ^ (32 * k)) 40 0 mod 2 ^ 32.

Definition K : list N := Eval vm_compute in map (fraction_of_root 3) primes.

(** The eight working words. *)
Record state : Type := State {
  wa : N; wb : N; wc : N; wd : N; we : N; wf : N; wg : N; wh : N
}.

Definition H0 : state :=
  Eval vm_compute in
    let h i := fraction_of_root 2 (nth i primes 0) in
    State (h 0%nat) (h 1%nat) (h 2%nat) (h 3%nat) (h 4%nat) (h 5%nat) (h 6%nat)
          (h 7%nat).

(** Padding: a 1 bit, zeros, and the bit length on 64 bits, up to a multiple
    of 64 bytes. *)
Definition be_bytes (k : nat) (x : N) : list N :=
  map (fun i => (x / 256 ^ N.of_nat i) mod 256) (rev (seq 0 k)).

Definition pad (m : list N) : list N :=
  let l := N.of_nat (length m) in
  m ++ [0x80] ++ repeat 0 (N.to_nat ((119 - l mod 64) mod 64))
    ++ be_bytes 8 (8 * l).

Fixpoint words (bs : list N) : list N :=
  match bs with
  | b0 :: b1 :: b2 :: b3 :: r =>
      (((b0 * 256 + b1) * 256 + b2) * 256 + b3) :: words r
  | _ => []
  end.

(** The message schedule; [w] holds the words so far, latest first. *)
Fixpoint schedule (n : nat) (w : list N) : list N :=
  match n with
  | O => rev w
  | S n' =>
      let get i := nth i w 0 in
      schedule n'
        (add32 (add32 (add32 (sigma1 (get 1%nat)) (get 6%nat))
                      (sigma0 (get 14%nat))) (get 15%nat) :: w)
  end.

Definition round (s : state) (kw : N * N) : state :=
  let (k, w) := kw in
  let t1 := add32 (add32 (add32 (add32 (wh s) (Sigma1 (we s)))
                                (Ch (we s) (wf s) (wg s))) k) w in
  let t2 := add32 (Sigma0 (wa s)) (Maj (wa s) (wb s) (wc s)) in
  State (add32 t1 t2) (wa s) (wb s) (wc s) (add32 (wd s) t1) (we s) (wf s) (wg s).

Definition compress (s : state) (block : list N) : state :=
  let w := schedule 48 (rev block) in
  let r := fold_left round (combine K w) s in
  State (add32 (wa s) (wa r)) (add32 (wb s) (wb r)) (add32 (wc s) (wc r))
        (add32 (wd s) (wd r)) (add32 (we s) (we r)) (add32 (wf s) (wf r))
        (add32 (wg s) (wg r)) (add32 (wh s) (wh r)).

Fixpoint blocks (fuel : nat) (ws : list N) (s : state) : state :=
  match fuel, ws with
  | S fuel', _ :: _ => blocks fuel' (skipn 16 ws) (compress s (firstn 16 ws))
  | _, _ => s
  end.

Definition digest (m : bytes) : state :=
  let ws := words (pad (map Byte.to_N m)) in
  blocks (length ws) ws H0.

(** Lower-case hexadecimal digits, as code points. *)
Definition hexdigit (n : N) : N := if n <? 10 then 48 + n else 87 + n.

Definition hex_alphabet : list N := map hexdigit (map N.of_nat (seq 0 16)).

Definition hex8 (w : N) : str :=
  map (fun i => hexdigit ((w / 16 ^ i) mod 16)) [7; 6; 5; 4; 3; 2; 1; 0].

Definition hexdigest (s : state) : str :=
  hex8 (wa s) ++ hex8 (wb s) ++ hex8 (wc s) ++ hex8 (wd s) ++
  hex8 (we s) ++ hex8 (wf s) ++ hex8 (wg s) ++ hex8 (wh s).

(** [hashlib.sha256(m).hexdigest()] *)
Definition sha256_hex (m : bytes) : str := hexdigest (digest m).

(** [b.hex()] for a byte string, two digits a byte. *)
Definition bytes_hex (b : bytes) : str :=
  flat_map (fun x => [hexdigit (Byte.to_N x / 16); hexdigit (Byte.to_N x mod 16)]) b.

End Sha256.


(** ** DatabaseManager: the SQLite file [passwords.db]

    The two tables are modelled by their rows.  [master] has at most one row
    (its primary key is checked to be 1); [passwords] keeps its rows in rowid
    order, with the AUTOINCREMENT counter of [sqlite_sequence].  A statement
    raises before it changes anything, so an operation returns its result
    together with the database it leaves. *)

Module DatabaseManager.

Record MasterRow : Type := {
  password_hash : str;
  salt : str
}.

Record Row : Type := {
  row_id : N;
  name : str;
  login : str;
  password_encrypted : bytes
}.

Record Database : Type := {
  master : option MasterRow;
  passwords : list Row;
  sqlite_sequence : N
}.

(** [init_database]: CREATE TABLE IF NOT EXISTS, on a new or an existing file. *)
Definition empty : Database :=
  {| master := None; passwords := []; sqlite_sequence := 0 |}.

Definition init_database (file : option Database) : Database :=
  match file with
  | Some d => d
  | None => empty
  end.

(** Binding a [str] parameter of a statement converts it to UTF-8 text; the
    sqlite3 module raises UnicodeEncodeError on a lone surrogate, before the
    statement runs. *)
Definition bind_text (s : str) : result unit :=
  _ <- Utf8.encode s ;; Return tt.

(** [hashlib.sha256((password + salt).encode()).hexdigest()] *)
Definition _hash_password (password salt : str) : result str :=
  b <- Utf8.encode (password ++ salt) ;;
  Return (Sha256.sha256_hex b).

(** [set_master_password]; [token] is what [secrets.token_hex(16)] returned. *)
Definition set_master_password (password : str) (token : str) (d : Database)
  : result unit * Database :=
  match _hash_password password token with
  | Raise e => (Raise e, d)
  | Return hashed =>
      match (_ <- bind_text hashed ;; bind_text token) with
      | Raise e => (Raise e, d)
      | Return _ =>
          (* INSERT OR REPLACE INTO master (id, password_hash, salt) VALUES (1, ?, ?) *)
          (Return tt,
           {| master := Some {| password_hash := hashed; salt := token |};
              passwords := passwords d;
              sqlite_sequence := sqlite_sequence d |})
      end
  end.

(** SELECT password_hash, salt FROM master WHERE id = 1; [fetchone()] *)
Definition get_master_password (d : Database) : option MasterRow := master d.

Definition verify_master_password (password : str) (d : Database) : result bool :=
  match get_master_password d with
  | None => Return false
  | Some row =>
      h <- _hash_password password (salt row) ;;
      Return (str_eqb h (password_hash row))
  end.

Definition has_name (n : str) (r : Row) : bool := str_eqb (name r) n.

(** INSERT INTO passwords (name, login, password_encrypted) VALUES (?, ?, ?):
    the UNIQUE constraint on [name] refuses a second row of the same name. *)
Definition add_password (n l : str) (encrypted_password : bytes) (d : Database)
  : result unit * Database :=
  match (_ <- bind_text n ;; bind_text l) with
  | Raise e => (Raise e, d)
  | Return _ =>
      if existsb (has_name n) (passwords d) then (Raise IntegrityError, d)
      else
        let i := sqlite_sequence d + 1 in
        (Return tt,
         {| master := master d;
            passwords := passwords d ++
              [{| row_id := i; name := n; login := l;
                  password_encrypted := encrypted_password |}];
            sqlite_sequence := i |})
  end.

(** SELECT * FROM passwords WHERE name = ?; [fetchone()] *)
Definition get_password (n : str) (d : Database) : result (option Row) :=
  _ <- bind_text n ;;
  Return (find (has_name n) (passwords d)).

(** The BINARY collation compares the UTF-8 text of two names byte by byte. *)
Definition sort_key (n : str) : list N :=
  match Utf8.encode n with
  | Return b => map Byte.to_N b
  | Raise _ => []
  end.

Fixpoint key_leb (a b : list N) : bool :=
  match a, b with
  | [], _ => true
  | _ :: _, [] => false
  | x :: a', y :: b' =>
      if x <? y then true else if y <? x then false else key_leb a' b'
  end.

Definition name_leb (a b : str) : bool := key_leb (sort_key a) (sort_key b).

Fixpoint insert_row (r : Row) (rs : list Row) : list Row :=
  match rs with
  | [] => [r]
  | r' :: rs' =>
      if name_leb (name r) (name r') then r :: rs else r' :: insert_row r rs'
  end.

Definition order_by_name (rs : list Row) : list Row :=
  fold_right insert_row [] rs.

(** SELECT name, login FROM passwords ORDER BY name; [fetchall()] *)
Definition list_passwords (d : Database) : list (str * str) :=
  map (fun r => (name r, login r)) (order_by_name (passwords d)).

(** DELETE FROM passwords WHERE name = ? *)
Definition delete_password (n : str) (d : Database) : result unit * Database :=
  match bind_text n with
  | Raise e => (Raise e, d)
  | Return _ =>
      (Return tt,
       {| master := master d;
          passwords := filter (fun r => negb (has_name n r)) (passwords d);
          sqlite_sequence := sqlite_sequence d |})
  end.

(** Rewriting the [password_encrypted] column, every other column kept. *)
Definition with_blob (f : Row -> bytes) (r : Row) : Row :=
  {| row_id := row_id r; name := name r; login := login r;
     password_encrypted := f r |}.

Definition with_blobs (f : Row -> bytes) (d : Database) : Database :=
  {| master := master d;
     passwords := map (with_blob f) (passwords d);
     sqlite_sequence := sqlite_sequence d |}.

(** The UNIQUE constraint, as an invariant of the table. *)
Definition unique_names (d : Database) : Prop :=
  NoDup (map name (passwords d)).

End DatabaseManager.


(** ** Fernet ([cryptography.fernet]), by its contract

    The library is not part of the repository: it is taken as an interface.
    [fernet_encrypt key now iv data] is [Fernet(key).encrypt(data)] at time
    [now] with the 16 random bytes [iv]; [fernet_decrypt] returns [None] where
    the library raises InvalidToken. *)

Class FernetLib : Type := {
  generate_key : bytes -> bytes;
  valid_key : bytes -> bool;
  fernet_encrypt : bytes -> N -> bytes -> bytes -> bytes;
  fernet_decrypt : bytes -> bytes -> option bytes;
  generate_key_valid : forall seed,
    length seed = 32%nat -> valid_key (generate_key seed) = true;
  decrypt_encrypt : forall key now iv data,
    valid_key key = true -> length iv = 16%nat -> now < 2 ^ 64 ->
    fernet_decrypt key (fernet_encrypt key now iv data) = Some data;
  decrypt_empty : forall key, fernet_decrypt key [] = None
}.

(** ** EncryptionManager *)

Module EncryptionManager.
Section WithFernet.
Context {F : FernetLib}.

(** [__init__]: the key of the key file, or a fresh one written to it; then
    [Fernet(self.key)], which raises ValueError on a malformed key.  Returns
    the key and the key file as it is left. *)
Definition init (key_file : option bytes) (seed : bytes)
  : result bytes * option bytes :=
  let key := match key_file with
             | Some k => k
             | None => generate_key seed
             end in
  (if valid_key key then Return key else Raise ValueError, Some key).

Definition encrypt (key : bytes) (now : N) (iv : bytes) (data : str)
  : result bytes :=
  b <- Utf8.encode data ;;
  Return (fernet_encrypt key now iv b).

Definition decrypt (key : bytes) (token : bytes) : result str :=
  match fernet_decrypt key token with
  | None => Raise InvalidToken
  | Some b => Utf8.decode b
  end.

End WithFernet.
End EncryptionManager.

(** ** The process: console, random source, clock, and the two objects *)

(** The calls made on [self.db]. *)
Inductive db_call : Type :=
| CallGetMaster
| CallSetMaster
| CallVerify
| CallAdd (n : str)
| CallGet (n : str)
| CallList
| CallDelete (n : str).

Record world : Type := World {
  db : DatabaseManager.Database;   (* passwords.db, as committed *)
  calls : list db_call;            (* the calls made on self.db, in order *)
  key_file : option bytes;         (* the file .key *)
  key : bytes;                     (* self.crypto.key *)
  stdin : list str;                (* the lines still to be typed *)
  output : list str;               (* prompts and printed lines, in order *)
  rand : nat -> N;                 (* the system random source *)
  drawn : nat;                     (* draws made so far *)
  clock : N                        (* int(time.time()) *)
}.

Definition set_db (c : db_call) (d : DatabaseManager.Database) (w : world) : world :=
  World d (calls w ++ [c]) (key_file w) (key w) (stdin w) (output w) (rand w)
        (drawn w) (clock w).
Definition set_key (kf : option bytes) (k : bytes) (w : world) : world :=
  World (db w) (calls w) kf k (stdin w) (output w) (rand w) (drawn w) (clock w).
Definition set_stdin (l : list str) (w : world) : world :=
  World (db w) (calls w) (key_file w) (key w) l (output w) (rand w) (drawn w)
        (clock w).
Definition write (s : str) (w : world) : world :=
  World (db w) (calls w) (key_file w) (key w) (stdin w) (output w ++ [s])
        (rand w) (drawn w) (clock w).
Definition advance (n : nat) (w : world) : world :=
  World (db w) (calls w) (key_file w) (key w) (stdin w) (output w) (rand w)
        (drawn w + n) (clock w).

(** The world when the program starts: [DatabaseManager()] opens or creates
    [passwords.db]. *)
Definition start (db_file : option DatabaseManager.Database)
           (key_file : option bytes) (lines : list str) (rand : nat -> N)
           (clock : N) : world :=
  World (DatabaseManager.init_database db_file) [] key_file [] lines [] rand
        0 clock.

(** What a run of a piece of the program leaves: a value or an exception, and
    the world; [OutOfFuel] only where the bound given to a loop was too small. *)
Inductive outcome (A : Type) : Type :=
| Done (r : result A) (w : world)
| OutOfFuel.
Arguments Done {A} r w.
Arguments OutOfFuel {A}.

Definition M (A : Type) : Type := world -> outcome A.

Definition ret {A} (a : A) : M A := fun w => Done (Return a) w.
Definition raise {A} (e : exception) : M A := fun w => Done (Raise e) w.
Definition bindM {A B} (m : M A) (k : A -> M B) : M B :=
  fun w =>
    match m w with
    | Done (Return a) w' => k a w'
    | Done (Raise e) w' => Done (Raise e) w'
    | OutOfFuel => OutOfFuel
    end.

Notation "'let*' x ':=' m 'in' k" := (bindM m (fun x => k))
  (at level 10, x name, m at level 100, k at level 200).
Notation "m ';;;' k" := (bindM m (fun _ => k))
  (at level 62, right associativity).

(** [print(s)] *)
Definition print (s : str) : M unit := fun w => Done (Return tt) (write s w).

(** [input(prompt)]: EOFError when nothing is left to read. *)
Definition input (prompt : str) : M str :=
  fun w =>
    match stdin w with
    | [] => Done (Raise EOFError) (write prompt w)
    | l :: r => Done (Return l) (set_stdin r (write prompt w))
    end.

(** [getpass.getpass(prompt)]: as [input], without echo. *)
Definition getpass (prompt : str) : M str := input prompt.

(** The next [n] bytes of the random source. *)
Definition random_bytes (n : nat) (w : world) : bytes :=
  map (fun i => Utf8.byte_of (rand w (drawn w + i) mod 256)) (seq 0 n).

(** [os.urandom(n)] *)
Definition urandom (n : nat) : M bytes :=
  fun w => Done (Return (random_bytes n w)) (advance n w).

(** [secrets.token_hex(n)] *)
Definition token_hex (n : nat) : M str :=
  let* b := urandom n in ret (Sha256.bytes_hex b).

(** [secrets.choice(seq)]: one draw below [len(seq)]. *)
Definition choice (s : str) : M N :=
  fun w =>
    Done (Return (nth (N.to_nat (rand w (drawn w) mod N.of_nat (length s))) s 0))
         (advance 1 w).

(** A call on [self.db]. *)
Definition on_db {A} (c : db_call)
           (f : DatabaseManager.Database -> result A * DatabaseManager.Database)
  : M A :=
  fun w => let (r, d) := f (db w) in Done r (set_db c d w).

(** The exit status of the process: an uncaught exception, [SystemExit] with
    a message included, ends it with status 1. *)
Definition exit_status {A} (o : outcome A) : option N :=
  match o with
  | Done (Return _) _ => Some 0
  | Done (Raise _) _ => Some 1
  | OutOfFuel => None
  end.

(** ** PasswordGenerator: the console controller *)

Module PasswordGenerator.

(** [int(s)] on the ASCII decimal literals: surrounding white space, a sign,
    digits with single underscores between them.  (Digits and spaces outside
    ASCII are not covered.) *)
Definition is_space (c : N) : bool :=
  ((9 <=? c) && (c <=? 13)) || (c =? 32).
Definition is_digit (c : N) : bool := (48 <=? c) && (c <=? 57).

Fixpoint lstrip (s : str) : str :=
  match s with
  | c :: s' => if is_space c then lstrip s' else s
  | [] => []
  end.

Definition strip (s : str) : str := rev (lstrip (rev (lstrip s))).

Fixpoint digits (acc : Z) (after_digit : bool) (s : str) : option Z :=
  match s with
  | [] => if after_digit then Some acc else None
  | c :: s' =>
      if is_digit c then digits (10 * acc + Z.of_N (c - 48)) true s'
      else if (c =? 95) && after_digit then digits acc false s'
      else None
  end.

Definition int (s : str) : result Z :=
  let t := strip s in
  let v := match t with
           | 45 :: r => option_map Z.opp (digits 0 false r)
           | 43 :: r => digits 0 false r
           | _ => digits 0 false t
           end in
  match v with
  | Some z => Return z
  | None => Raise ValueError
  end.

(** [string.ascii_lowercase + string.ascii_uppercase + string.digits + "!@#$%^&*()"] *)
Definition chars : str :=
  py "abcdefghijklmnopqrstuvwxyz" ++ py "ABCDEFGHIJKLMNOPQRSTUVWXYZ"
  ++ py "0123456789" ++ py "!@#$%^&*()".

Definition too_many_attempts : str := py "Слишком много попыток.".

Definition menu : str := py "
1. Добавить пароль
2. Получить пароль
3. Список паролей
4. Удалить пароль
5. Сгенерировать пароль
0. Выход
".

Section WithFernet.
Context {F : FernetLib}.

(** *** auth *)

(** One round of the [while True] of [setup_master_password]; [again] is the
    rest of the loop. *)
Definition setup_round (again : M unit) : M unit :=
  let* p1 := getpass (py "Мастер-пароль: ") in
  let* p2 := getpass (py "Повторите: ") in
  if negb (str_eqb p1 []) && str_eqb p1 p2 then
    (let* token := token_hex 16 in
     on_db CallSetMaster (DatabaseManager.set_master_password p1 token)) ;;;
    print (py "✅ Мастер-пароль сохранён.")
  else
    print (py "❌ Пароли не совпали.") ;;; again.

Fixpoint setup_loop (fuel : nat) : M unit :=
  match fuel with
  | O => fun _ => OutOfFuel
  | S fuel' => setup_round (setup_loop fuel')
  end.

Definition setup_master_password (fuel : nat) : M unit :=
  let* row := on_db CallGetMaster
                (fun d => (Return (DatabaseManager.get_master_password d), d)) in
  match row with
  | Some _ => ret tt
  | None =>
      print (py "🔐 Первый запуск. Создайте мастер-пароль.") ;;;
      setup_loop fuel
  end.

(** [for _ in range(n)] of [authenticate], then [raise SystemExit(...)]. *)
Fixpoint authenticate_from (n : nat) : M unit :=
  match n with
  | O => raise (SystemExit too_many_attempts)
  | S n' =>
      let* pwd := getpass (py "Введите мастер-пароль: ") in
      let* ok := on_db CallVerify
                   (fun d => (DatabaseManager.verify_master_password pwd d, d)) in
      if ok : bool then ret tt
      else print (py "❌ Неверный пароль.") ;;; authenticate_from n'
  end.

Definition authenticate : M unit := authenticate_from 3.

(** *** operations *)

(** [self.crypto.encrypt(data)]: the string is encoded first; Fernet then
    reads the clock and draws its 16 random bytes. *)
Definition crypto_encrypt (data : str) : M bytes :=
  fun w =>
    match EncryptionManager.encrypt (key w) (clock w) (random_bytes 16 w) data with
    | Return token => Done (Return token) (advance 16 w)
    | Raise e => Done (Raise e) w
    end.

(** [self.crypto.decrypt(token)] *)
Definition crypto_decrypt (token : bytes) : M str :=
  fun w => Done (EncryptionManager.decrypt (key w) token) w.

Definition add_password : M unit :=
  let* n := input (py "Название: ") in
  let* l := input (py "Логин: ") in
  let* password := getpass (py "Пароль: ") in
  let* encrypted := crypto_encrypt password in
  on_db (CallAdd n) (DatabaseManager.add_password n l encrypted) ;;;
  print (py "✅ Пароль сохранён.").

Fixpoint draw (n : nat) : M str :=
  match n with
  | O => ret []
  | S n' =>
      let* c := choice chars in
      let* s := draw n' in
      ret (c :: s)
  end.

Definition generate_password_interactive : M unit :=
  let* line := input (py "Длина (по умолчанию 16): ") in
  let* length := (fun w => Done (match line with
                                 | [] => Return 16%Z
                                 | _ => int line
                                 end) w) in
  let* password := draw (Z.to_nat length) in
  print (py "🔑 Новый пароль:" ++ py " " ++ password).

Definition get_password : M unit :=
  let* n := input (py "Название: ") in
  let* row := on_db (CallGet n) (fun d => (DatabaseManager.get_password n d, d)) in
  match row with
  | None => print (py "❌ Не найдено.")
  | Some r =>
      let* password := crypto_decrypt (DatabaseManager.password_encrypted r) in
      print (py "Логин: " ++ DatabaseManager.login r) ;;;
      print (py "Пароль: " ++ password)
  end.

Fixpoint print_rows (rows : list (str * str)) : M unit :=
  match rows with
  | [] => ret tt
  | (n, l) :: rows' =>
      print (py "- " ++ n ++ py " (" ++ l ++ py ")") ;;; print_rows rows'
  end.

Definition list_passwords : M unit :=
  let* rows := on_db CallList
                 (fun d => (Return (DatabaseManager.list_passwords d), d)) in
  match rows with
  | [] => print (py "Пока пусто.")
  | _ => print_rows rows
  end.

Definition delete_password : M unit :=
  let* n := input (py "Название: ") in
  on_db (CallDelete n) (DatabaseManager.delete_password n) ;;;
  print (py "🗑 Удалено.").

(** *** menu *)

Definition dispatch (choice : str) (again : M unit) : M unit :=
  if str_eqb choice (py "1") then add_password ;;; again
  else if str_eqb choice (py "2") then get_password ;;; again
  else if str_eqb choice (py "3") then list_passwords ;;; again
  else if str_eqb choice (py "4") then delete_password ;;; again
  else if str_eqb choice (py "5") then generate_password_interactive ;;; again
  else if str_eqb choice (py "0") then ret tt
  else print (py "Неверный выбор.") ;;; again.

Fixpoint show_menu (fuel : nat) : M unit :=
  match fuel with
  | O => fun _ => OutOfFuel
  | S fuel' =>
      print menu ;;;
      let* choice := input (py "> ") in
      dispatch choice (show_menu fuel')
  end.

(** [self.crypto = EncryptionManager()] *)
Definition new_crypto : M unit :=
  fun w =>
    let seed := random_bytes 32 w in
    let w1 := match key_file w with
              | Some _ => w
              | None => advance 32 w
              end in
    let (r, kf) := EncryptionManager.init (key_file w) seed in
    match r with
    | Return k => Done (Return tt) (set_key kf k w1)
    | Raise e => Done (Raise e) (set_key kf (key w) w1)
    end.

(** [__init__], after [self.db = DatabaseManager()] (see [start]). *)
Definition init (fuel : nat) : M unit :=
  new_crypto ;;; setup_master_password fuel ;;; authenticate.

(** [PasswordGenerator().show_menu()] *)
Definition main (fuel : nat) : M unit :=
  init fuel ;;; show_menu fuel.

End WithFernet.
End PasswordGenerator.

(** ** Definitions used in the statements: sample data and worlds *)

Module Scenario.
Import DatabaseManager PasswordGenerator.

(** All the words of a given length over an alphabet. *)
Fixpoint words_of {A} (alphabet : list A) (n : nat) : list (list A) :=
  match n with
  | O => [[]]
  | S n' => flat_map (fun w => map (fun a => a :: w) alphabet) (words_of alphabet n')
  end.

(** A store with one credential, [("github", "alice", b"x")]. *)
Definition github_row : Row :=
  {| row_id := 1; name := py "github"; login := py "alice";
     password_encrypted := [x78] |}.

Definition one_credential : Database :=
  {| master := None; passwords := [github_row]; sqlite_sequence := 1 |}.

Definition with_master (h t : str) : Database :=
  {| master := Some {| password_hash := h; salt := t |};
     passwords := []; sqlite_sequence := 0 |}.

(** A salt as [secrets.token_hex(16)] returns them. *)
Definition a_salt : str := py "000102030405060708090a0b0c0d0e0f".

Definition sunflower : str := py "Sunflower42!".

Definition sunflower_hash : str :=
  py "086358cb1007913e1503c2f1a3a291bc4b64fda417dacd92801c73ca723bba7d".

(** The passwords ["a" * n]. *)
Definition a_times (n : nat) : str := repeat 97 n.

Definition digest_of (t : str) (n : nat) : str :=
  match _hash_password (a_times n) t with
  | Return h => h
  | Raise _ => []
  end.

(** A key as [Fernet.generate_key()] returns them: 44 characters. *)
Definition a_key : bytes := list_byte_of_string "AAAAAAAAAAAAAAAAAAAAAAAAAAAAAAAAAAAAAAAAAAA=".

Definition an_iv : bytes := repeat x00 16.

Definition length_prompt : str := py "Длина (по умолчанию 16): ".

Definition idle (lines : list str) : world :=
  start None (Some a_key) lines (fun _ => 0) 1700000000.

Definition password_prompt : str := py "Введите мастер-пароль: ".
Definition wrong_password : str := py "❌ Неверный пароль.".

(** The world after three refused passwords: three lines read, three calls
    of [verify_master_password], the prompts and refusals printed, and the
    database as it was. *)
Definition locked (w : world) (lines : list str) : world :=
  World (db w) (calls w ++ [CallVerify; CallVerify; CallVerify]) (key_file w)
        (key w) lines
        (output w ++ [password_prompt; wrong_password; password_prompt;
                      wrong_password; password_prompt; wrong_password])
        (rand w) (drawn w) (clock w).

Definition name_prompt : str := py "Название: ".

(** The world after a retrieval that failed to decrypt: the menu, the two
    prompts, one lookup in the store, and nothing else. *)
Definition retrieval_failed (w : world) (n : str) (lines : list str) : world :=
  World (db w) (calls w ++ [CallGet n]) (key_file w) (key w) lines
        (output w ++ [menu; py "> "; name_prompt])
        (rand w) (drawn w) (clock w).

Definition master_prompt : str := py "Мастер-пароль: ".
Definition repeat_prompt : str := py "Повторите: ".
Definition mismatch : str := py "❌ Пароли не совпали.".

(** The world after the two entries of a set-up round were read. *)
Definition asked (w : world) (p2 : str) (lines : list str) : world :=
  set_stdin lines (write repeat_prompt
                     (set_stdin (p2 :: lines) (write master_prompt w))).

(** What a round does with entries that are accepted. *)
Definition accept (p1 : str) : M unit :=
  (let* token := token_hex 16 in
   on_db CallSetMaster (DatabaseManager.set_master_password p1 token)) ;;;
  print (py "✅ Мастер-пароль сохранён.").

(** A store with the master record of "Sunflower42!" and one credential whose
    blob is empty (no Fernet token is). *)
Definition unreadable_row : Row :=
  {| row_id := 1; name := py "github"; login := py "alice";
     password_encrypted := [] |}.

Definition vault : Database :=
  {| master := Some {| password_hash := sunflower_hash; salt := a_salt |};
     passwords := [unreadable_row]; sqlite_sequence := 1 |}.

(** A later run on [vault], and the same run once the key is loaded and
    set-up has found the master record. *)
Definition session (lines : list str) : world :=
  start (Some vault) (Some a_key) lines (fun _ => 0) 1700000000.

Definition at_the_gate (lines : list str) : world :=
  set_db CallGetMaster vault (set_key (Some a_key) a_key (session lines)).

(** A first run: no database, no key file; two empty entries, then
    "Sunflower42!" twice. *)
Definition first_run : world :=
  start None None [[]; []; sunflower; sunflower] (fun _ => 0) 1700000000.

Definition after_setup : world :=
  match setup_master_password 5 first_run with
  | Done _ w => w
  | OutOfFuel => first_run
  end.

(** A piece of the program is [steady] when it ends (without a loop bound)
    and leaves no more lines to read than it found. *)
Definition steady {A} (m : M A) : Prop :=
  forall w, exists r w',
    m w = Done r w' /\ (length (stdin w') <= length (stdin w))%nat.

End Scenario.

(** ** A reference instance of the Fernet contract

    Not a cipher: a framing that satisfies the contract, so that the contract
    is known to be satisfiable and the program can be run on examples.  A token
    is the version byte, the 16 random bytes, the key and the data. *)

Module ReferenceFernet.

Definition bytes_eqb (a b : bytes) : bool :=
  if list_eq_dec Byte.byte_eq_dec a b then true else false.

Definition ref_generate_key (seed : bytes) : bytes := seed ++ repeat "="%byte 12.

Definition ref_valid_key (k : bytes) : bool := (length k =? 44)%nat.

Definition ref_encrypt (k : bytes) (now : N) (iv data : bytes) : bytes :=
  x80 :: iv ++ k ++ data.

Definition ref_decrypt (k : bytes) (token : bytes) : option bytes :=
  match token with
  | x80 :: r =>
      let body := skipn 16 r in
      if (16 <=? length r)%nat && bytes_eqb (firstn (length k) body) k
      then Some (skipn (length k) body)
      else None
  | _ => None
  end.

Lemma ref_generate_key_valid seed :
  length seed = 32%nat -> ref_valid_key (ref_generate_key seed) = true.
Proof.
  intros H. unfold ref_valid_key, ref_generate_key.
  rewrite length_app, repeat_length, H. reflexivity.
Qed.

Lemma ref_decrypt_encrypt k now iv data :
  ref_valid_key k = true -> length iv = 16%nat -> now < 2 ^ 64 ->
  ref_decrypt k (ref_encrypt k now iv data) = Some data.
Proof.
  intros _ Hiv _. unfold ref_decrypt, ref_encrypt.
  replace (16 <=? length (iv ++ k ++ data))%nat with true
    by (symmetry; apply Nat.leb_le; rewrite length_app; lia).
  rewrite <- Hiv, skipn_app, skipn_all, Nat.sub_diag. cbn [skipn app andb].
  rewrite firstn_app, firstn_all, Nat.sub_diag. cbn [firstn].
  rewrite app_nil_r. unfold bytes_eqb.
  destruct (list_eq_dec Byte.byte_eq_dec k k); [|congruence].
  rewrite skipn_app, skipn_all, Nat.sub_diag. reflexivity.
Qed.

#[export] Instance reference : FernetLib := {|
  generate_key := ref_generate_key;
  valid_key := ref_valid_key;
  fernet_encrypt := ref_encrypt;
  fernet_decrypt := ref_decrypt;
  generate_key_valid := ref_generate_key_valid;
  decrypt_encrypt := ref_decrypt_encrypt;
  decrypt_empty := fun _ => eq_refl
|}.

End ReferenceFernet.

(** * Proofs *)

(** ** Strings *)

Lemma str_eqb_eq a b : str_eqb a b = true <-> a = b.
Proof. unfold str_eqb. destruct (list_eq_dec N.eq_dec a b); split; congruence. Qed.

Lemma str_eqb_refl a : str_eqb a a = true.
Proof. now apply str_eqb_eq. Qed.

Lemma str_eqb_neq a b : str_eqb a b = false <-> a <> b.
Proof. unfold str_eqb. destruct (list_eq_dec N.eq_dec a b); split; congruence. Qed.

(** *** Codec lemmas *)

Module Utf8Facts.
Import Utf8.

Lemma to_N_byte_of n : n < 256 -> Byte.to_N (byte_of n) = n.
Proof.
  intros Hn. unfold byte_of.
  destruct (Byte.of_N n) as [b|] eqn:E.
  - now apply Byte.to_of_N.
  - apply Byte.of_N_None_iff in E. lia.
Qed.

Lemma push_Return c r s : r = Return s -> push c r = Return (c :: s).
Proof. now intros ->. Qed.

Ltac test_true :=
  rewrite ?andb_true_iff; repeat split;
  first [apply N.ltb_lt | apply N.leb_le | apply N.eqb_eq]; lia.

Ltac test_false :=
  first [apply N.ltb_ge | apply N.leb_gt | apply N.eqb_neq]; lia.

(** Settles the test of the conditional at the head of the goal. *)
Ltac head_if :=
  match goal with
  | |- (if ?t then _ else _) = _ =>
      first [ replace t with true by (symmetry; test_true)
            | replace t with false by (symmetry; test_false) ];
      cbv iota
  end.

Section DecodeSequences.
Variables (a b c d : N) (rest : bytes).

Lemma decode_1 :
  a < 0x80 -> decode (byte_of a :: rest) = push a (decode rest).
Proof.
  intros. cbn [decode]. rewrite !to_N_byte_of by lia.
  now repeat head_if.
Qed.

Lemma decode_2 :
  0xC2 <= a < 0xE0 -> 0x80 <= b <= 0xBF ->
  decode (byte_of a :: byte_of b :: rest)
  = push ((a - 0xC0) * 64 + (b - 0x80)) (decode rest).
Proof.
  intros. cbn [decode]. rewrite !to_N_byte_of by lia.
  unfold is_cont. now repeat head_if.
Qed.

Lemma decode_3 :
  0xE0 <= a < 0xF0 -> 0x80 <= b <= 0xBF -> 0x80 <= c <= 0xBF ->
  (a = 0xE0 -> 0xA0 <= b) -> (a = 0xED -> b <= 0x9F) ->
  decode (byte_of a :: byte_of b :: byte_of c :: rest)
  = push ((a - 0xE0) * 4096 + (b - 0x80) * 64 + (c - 0x80)) (decode rest).
Proof.
  intros. cbn [decode]. rewrite !to_N_byte_of by lia.
  unfold is_cont.
  destruct (N.eqb_spec a 0xE0); destruct (N.eqb_spec a 0xED); cbv iota;
    try (exfalso; lia); now repeat head_if.
Qed.

Lemma decode_4 :
  0xF0 <= a < 0xF5 -> 0x80 <= b <= 0xBF -> 0x80 <= c <= 0xBF ->
  0x80 <= d <= 0xBF ->
  (a = 0xF0 -> 0x90 <= b) -> (a = 0xF4 -> b <= 0x8F) ->
  decode (byte_of a :: byte_of b :: byte_of c :: byte_of d :: rest)
  = push ((a - 0xF0) * 262144 + (b - 0x80) * 4096 + (c - 0x80) * 64
          + (d - 0x80)) (decode rest).
Proof.
  intros. cbn [decode]. rewrite !to_N_byte_of by lia.
  unfold is_cont.
  destruct (N.eqb_spec a 0xF0); destruct (N.eqb_spec a 0xF4); cbv iota;
    try (exfalso; lia); now repeat head_if.
Qed.
End DecodeSequences.

(** The quotient and remainder by 64 that make up the bytes of [c]. *)
Lemma split64 c :
  exists q r, c = 64 * q + r /\ r < 64 /\ c / 64 = q /\ c mod 64 = r.
Proof.
  exists (c / 64), (c mod 64). repeat split.
  - apply N.div_mod. lia.
  - apply N.mod_lt. lia.
Qed.

Ltac split64_as c q r :=
  let H := fresh "H" in let Hr := fresh "Hr" in
  let Eq := fresh "Eq" in let Er := fresh "Er" in
  destruct (split64 c) as (q & r & H & Hr & Eq & Er);
  rewrite ?Eq, ?Er.

(** Decoding the encoding of one code point gives it back, whatever follows. *)
Lemma decode_encode_char c rest :
  c <= 0x10FFFF ->
  match encode_char c with
  | Return b => decode (b ++ rest) = push c (decode rest)
  | Raise _ => True
  end.
Proof.
  intros Hc. unfold encode_char, is_surrogate.
  change 4096 with (64 * 64). change 262144 with (64 * 64 * 64).
  rewrite <- !N.Div0.div_div.
  split64_as c q0 r0. split64_as q0 q1 r1. split64_as q1 q2 r2.
  destruct (N.ltb_spec c 0x80);
    [|destruct (N.ltb_spec c 0x800);
      [|destruct (N.ltb_spec c 0x10000);
        [destruct (N.leb_spec 0xD800 c); [destruct (N.leb_spec c 0xDFFF)|]|]]];
    cbv [andb app]; trivial.
  - now apply decode_1.
  - rewrite decode_2 by lia. f_equal. lia.
  - rewrite decode_3 by lia. f_equal. lia.
  - rewrite decode_3 by lia. f_equal. lia.
  - rewrite decode_4 by lia. f_equal. lia.
Qed.

Lemma decode_encode s bs :
  is_str s -> encode s = Return bs -> decode bs = Return s.
Proof.
  intros Hs. revert bs. induction Hs as [|c s Hc _ IH]; intros bs; cbn [encode].
  - now intros [= <-].
  - pose proof (decode_encode_char c) as Hd.
    destruct (encode_char c) as [b|]; cbn [bind]; [|discriminate].
    destruct (encode s) as [bs'|]; cbn [bind]; [|discriminate].
    intros [= <-]. rewrite (Hd bs' Hc).
    now apply push_Return, IH.
Qed.

Lemma encode_char_Return c :
  is_surrogate c = false -> exists b, encode_char c = Return b.
Proof.
  intros H. unfold encode_char. rewrite H.
  repeat match goal with |- context [if ?t then _ else _] => destruct t end;
    eexists; reflexivity.
Qed.

Lemma encode_char_Raise c :
  is_surrogate c = true -> encode_char c = Raise UnicodeEncodeError.
Proof.
  intros H. unfold encode_char. rewrite H.
  unfold is_surrogate in H. apply andb_prop in H as [H1 H2].
  apply N.leb_le in H1, H2.
  now repeat head_if.
Qed.

(** [encode] succeeds exactly on the strings without surrogates. *)
Lemma encode_Return s : encodable s -> exists bs, encode s = Return bs.
Proof.
  induction 1 as [|c s Hc _ [bs IH]]; cbn [encode].
  - now exists [].
  - destruct (encode_char_Return c Hc) as [b ->]. rewrite IH. cbn.
    now eexists.
Qed.

Lemma encode_Raise s :
  ~ encodable s -> encode s = Raise UnicodeEncodeError.
Proof.
  induction s as [|c s IH]; intros H.
  - destruct H. constructor.
  - cbn [encode]. destruct (is_surrogate c) eqn:Ec.
    + now rewrite encode_char_Raise.
    + destruct (encode_char_Return c Ec) as [b ->]. cbn [bind].
      rewrite IH; [reflexivity|]. intros Hs. apply H. now constructor.
Qed.

Lemma encode_Return_encodable s bs : encode s = Return bs -> encodable s.
Proof.
  intros E. destruct (Forall_dec (fun c => is_surrogate c = false)
                        (fun c => bool_dec (is_surrogate c) false) s) as [H|H].
  - exact H.
  - apply encode_Raise in H. congruence.
Qed.

Lemma encode_only_raises s e : encode s = Raise e -> e = UnicodeEncodeError.
Proof.
  intros E. destruct (Forall_dec (fun c => is_surrogate c = false)
                        (fun c => bool_dec (is_surrogate c) false) s) as [H|H].
  - destruct (encode_Return s H) as [bs Hbs]. congruence.
  - apply encode_Raise in H. congruence.
Qed.

Lemma encodable_app a b : encodable a -> encodable b -> encodable (a ++ b).
Proof. intros Ha Hb. apply Forall_app. now split. Qed.

Example lit_ascii : lit "p@ss" = [112; 64; 115; 115].
Proof. reflexivity. Qed.

Example encode_lone_surrogate : encode [0xD800] = Raise UnicodeEncodeError.
Proof. reflexivity. Qed.

(** "é€😀".encode() == b"\xc3\xa9\xe2\x82\xac\xf0\x9f\x98\x80" *)
Example encode_two_three_four :
  encode [0xE9; 0x20AC; 0x1F600]
  = Return [xc3; xa9; xe2; x82; xac; xf0; x9f; x98; x80].
Proof. reflexivity. Qed.

(** Overlong forms, an encoded surrogate, a code point above U+10FFFF and a
    truncated sequence are refused. *)
Example decode_refused :
  decode [xc0; x80] = Raise UnicodeDecodeError
  /\ decode [xe0; x80; x80] = Raise UnicodeDecodeError
  /\ decode [xed; xa0; x80] = Raise UnicodeDecodeError
  /\ decode [xf4; x90; x80; x80] = Raise UnicodeDecodeError
  /\ decode [xe2; x82] = Raise UnicodeDecodeError.
Proof. repeat split; reflexivity. Qed.

End Utf8Facts.

(** ** Facts about SHA-256 *)

Module Sha256Facts.
Import Sha256.

(** The first and the last of the round constants, and of the initial words. *)
Example constants :
  length K = 64%nat /\ nth 0 K 0 = 0x428a2f98 /\ nth 63 K 0 = 0xc67178f2
  /\ wa H0 = 0x6a09e667 /\ wh H0 = 0x5be0cd19.
Proof. repeat split. Qed.

(** FIPS 180-4 test vectors, and one message of two blocks. *)
Example sha256_empty :
  sha256_hex [] =
  py "e3b0c44298fc1c149afbf4c8996fb92427ae41e4649b934ca495991b7852b855".
Proof. vm_compute. reflexivity. Qed.

Example sha256_abc :
  sha256_hex (list_byte_of_string "abc") =
  py "ba7816bf8f01cfea414140de5dae2223b00361a396177a9cb410ff61f20015ad".
Proof. vm_compute. reflexivity. Qed.

Example sha256_a100 :
  sha256_hex (repeat "a"%byte 100) =
  py "2816597888e4a0d3a36b82b83316ab32680eb8f00f8cd3b904d681246d285a0e".
Proof. vm_compute. reflexivity. Qed.

Lemma hexdigit_alphabet n : n < 16 -> In (hexdigit n) hex_alphabet.
Proof.
  intros Hn. apply in_map. rewrite <- (N2Nat.id n).
  apply in_map, in_seq. lia.
Qed.

Lemma hex8_alphabet w : Forall (fun c => In c hex_alphabet) (hex8 w).
Proof.
  unfold hex8. apply Forall_map, Forall_forall. intros i _.
  apply hexdigit_alphabet, N.mod_lt. lia.
Qed.

(** A digest is 64 characters long, all of them hexadecimal digits. *)
Lemma hexdigest_length s : length (hexdigest s) = 64%nat.
Proof. reflexivity. Qed.

Lemma hexdigest_alphabet s : Forall (fun c => In c hex_alphabet) (hexdigest s).
Proof. unfold hexdigest. repeat (apply Forall_app; split); apply hex8_alphabet. Qed.

End Sha256Facts.

(** ** Facts about the credential store *)

Module DatabaseFacts.
Import DatabaseManager.

Lemma bind_text_Return s : encodable s -> bind_text s = Return tt.
Proof.
  intros H. unfold bind_text.
  now destruct (Utf8Facts.encode_Return s H) as [b ->].
Qed.

Lemma bind_text_Raise s : ~ encodable s -> bind_text s = Raise UnicodeEncodeError.
Proof. intros H. unfold bind_text. now rewrite Utf8Facts.encode_Raise. Qed.

Lemma hash_password_Return password t :
  encodable (password ++ t) ->
  exists b, Utf8.encode (password ++ t) = Return b
            /\ _hash_password password t = Return (Sha256.sha256_hex b).
Proof.
  intros H. destruct (Utf8Facts.encode_Return _ H) as [b Hb].
  exists b. split; [exact Hb|]. unfold _hash_password. now rewrite Hb.
Qed.

Lemma hash_password_Raise password t :
  ~ encodable (password ++ t) ->
  _hash_password password t = Raise UnicodeEncodeError.
Proof. intros H. unfold _hash_password. now rewrite Utf8Facts.encode_Raise. Qed.

(** *** The order of [ORDER BY name] *)

Lemma key_leb_total a b : key_leb a b = false -> key_leb b a = true.
Proof.
  revert b. induction a as [|x a IH]; intros [|y b]; cbn; try congruence.
  destruct (N.ltb_spec x y), (N.ltb_spec y x); try congruence; try lia.
  apply IH.
Qed.

Lemma key_leb_trans a b c :
  key_leb a b = true -> key_leb b c = true -> key_leb a c = true.
Proof.
  revert b c. induction a as [|x a IH]; intros [|y b] [|z c]; cbn;
    try congruence.
  destruct (N.ltb_spec x y), (N.ltb_spec y x), (N.ltb_spec y z),
    (N.ltb_spec z y), (N.ltb_spec x z), (N.ltb_spec z x);
    try congruence; try lia.
  apply IH.
Qed.

Definition row_le (a b : Row) : Prop := name_leb (name a) (name b) = true.

Lemma row_le_trans : Relations_1.Transitive row_le.
Proof. intros a b c. unfold row_le, name_leb. apply key_leb_trans. Qed.

Lemma insert_row_perm r rs : Permutation (insert_row r rs) (r :: rs).
Proof.
  induction rs as [|r' rs IH]; cbn; [reflexivity|].
  destruct (name_leb (name r) (name r')); [reflexivity|].
  rewrite IH. apply perm_swap.
Qed.

Lemma order_by_name_perm rs : Permutation (order_by_name rs) rs.
Proof.
  induction rs as [|r rs IH]; cbn; [reflexivity|].
  rewrite insert_row_perm. now constructor.
Qed.

Lemma insert_row_hd r r0 rs :
  row_le r0 r -> HdRel row_le r0 rs -> HdRel row_le r0 (insert_row r rs).
Proof.
  intros Hr H. destruct H as [|r' rs H]; cbn.
  - now constructor.
  - destruct (name_leb (name r) (name r')); now constructor.
Qed.

Lemma insert_row_sorted r rs :
  Sorted row_le rs -> Sorted row_le (insert_row r rs).
Proof.
  induction 1 as [|r' rs Hs IH Hd]; cbn.
  - repeat constructor.
  - destruct (name_leb (name r) (name r')) eqn:E.
    + constructor; [now constructor|]. now constructor.
    + constructor; [exact IH|]. apply insert_row_hd; [|exact Hd].
      now apply key_leb_total.
Qed.

Lemma order_by_name_sorted rs : StronglySorted row_le (order_by_name rs).
Proof.
  apply Sorted_StronglySorted; [exact row_le_trans|].
  induction rs as [|r rs IH]; cbn; [constructor|].
  now apply insert_row_sorted.
Qed.

Lemma StronglySorted_map {A B} (R : A -> A -> Prop) (S : B -> B -> Prop)
      (f : A -> B) l :
  (forall a b, R a b -> S (f a) (f b)) ->
  StronglySorted R l -> StronglySorted S (map f l).
Proof.
  intros HRS. induction 1 as [|a l Hl IH Ha]; cbn; constructor; [exact IH|].
  apply Forall_map. revert Ha. apply Forall_impl. intros b. apply HRS.
Qed.

Lemma insert_row_with_blob f r rs :
  insert_row (with_blob f r) (map (with_blob f) rs)
  = map (with_blob f) (insert_row r rs).
Proof.
  induction rs as [|r' rs IH]; cbn; [reflexivity|].
  destruct (name_leb (name r) (name r')); cbn; [reflexivity|].
  now rewrite IH.
Qed.

Lemma order_by_name_with_blob f rs :
  order_by_name (map (with_blob f) rs) = map (with_blob f) (order_by_name rs).
Proof.
  unfold order_by_name. induction rs as [|r rs IH]; cbn; [reflexivity|].
  rewrite IH. apply insert_row_with_blob.
Qed.

(** *** Lookups by name *)

Lemma existsb_has_name n rs :
  existsb (has_name n) rs = true <-> In n (map name rs).
Proof.
  rewrite existsb_exists, in_map_iff. unfold has_name.
  split; intros [r [H1 H2]]; exists r.
  - apply str_eqb_eq in H2. tauto.
  - split; [tauto|]. now apply str_eqb_eq.
Qed.

Lemma existsb_has_name_false n rs :
  existsb (has_name n) rs = false <-> ~ In n (map name rs).
Proof.
  rewrite <- existsb_has_name. destruct (existsb (has_name n) rs); split;
    congruence.
Qed.

Lemma filter_absent n rs :
  ~ In n (map name rs) -> filter (fun r => negb (has_name n r)) rs = rs.
Proof.
  induction rs as [|r rs IH]; cbn; [reflexivity|]. intros H.
  unfold has_name at 1. destruct (str_eqb (name r) n) eqn:E.
  - apply str_eqb_eq in E. tauto.
  - cbn. rewrite IH; [reflexivity|tauto].
Qed.

Lemma filter_none {A} (f : A -> bool) l :
  (forall x, In x l -> f x = false) -> filter f l = [].
Proof.
  induction l as [|a l IH]; cbn; [reflexivity|]. intros H.
  rewrite (H a) by now left. apply IH. intros x Hx. apply H. now right.
Qed.

Lemma filter_unique n r rs :
  NoDup (map name rs) -> In r rs -> name r = n ->
  filter (has_name n) rs = [r].
Proof.
  induction rs as [|r' rs IH]; cbn; [tauto|].
  intros Hnd [->|Hin] Hn; inversion Hnd as [|? ? Hnot Hnd']; subst.
  - unfold has_name at 1. rewrite str_eqb_refl. f_equal.
    apply filter_none. intros r' Hr'. apply str_eqb_neq. intros E.
    apply Hnot. rewrite <- E. now apply in_map.
  - unfold has_name at 1. destruct (str_eqb (name r') (name r)) eqn:E.
    + apply str_eqb_eq in E. exfalso. apply Hnot. rewrite E. now apply in_map.
    + now apply IH.
Qed.

End DatabaseFacts.

(** ** Pigeonhole: a function into a finite range takes some value twice *)

Module Pigeonhole.
Import Scenario.
Section Collisions.
Context {B : Type} (eq_dec : forall x y : B, {x = y} + {x <> y}).

Lemma collision_below (f : nat -> B) n :
  ~ NoDup (map f (seq 0 n)) ->
  exists i j, (i < j < n)%nat /\ f i = f j.
Proof.
  induction n as [|n IH]; intros H.
  - destruct H. constructor.
  - rewrite seq_S, map_app in H. cbn [map plus] in H.
    destruct (in_dec eq_dec (f n) (map f (seq 0 n))) as [Hin|Hout].
    + apply in_map_iff in Hin as [i [Hi Hs]]. apply in_seq in Hs.
      exists i, n. split; [lia|exact Hi].
    + destruct (ListDec.NoDup_dec eq_dec (map f (seq 0 n))) as [Hnd|Hd].
      * destruct H. apply NoDup_app; [exact Hnd|repeat constructor; auto|].
        intros x Hx [<-|[]]. contradiction.
      * destruct (IH Hd) as (i & j & Hij & E). exists i, j. split; [lia|exact E].
Qed.

Lemma pigeonhole (f : nat -> B) (range : list B) :
  (forall n, In (f n) range) ->
  exists i j, (i < j)%nat /\ f i = f j.
Proof.
  intros Hf.
  destruct (ListDec.NoDup_dec eq_dec (map f (seq 0 (S (length range)))))
    as [Hnd|Hd].
  - apply NoDup_incl_length with (l' := range) in Hnd.
    + rewrite length_map, length_seq in Hnd. lia.
    + intros x Hx. apply in_map_iff in Hx as [n [<- _]]. apply Hf.
  - destruct (collision_below f _ Hd) as (i & j & Hij & E).
    exists i, j. split; [lia|exact E].
Qed.
End Collisions.


Lemma in_words_of {A} (alphabet : list A) l :
  Forall (fun a => In a alphabet) l -> In l (words_of alphabet (length l)).
Proof.
  induction 1 as [|a l Ha _ IH]; cbn [length words_of]; [now left|].
  apply in_flat_map. exists l. split; [exact IH|].
  exact (in_map (fun x => x :: l) alphabet a Ha).
Qed.

End Pigeonhole.

(** ** The credential store: replace, list, delete, verify *)

Module StoreProperties.
Import DatabaseManager DatabaseFacts Scenario.


Lemma encodable_lit_github : encodable (py "github") /\ encodable (py "bob").
Proof. split; repeat constructor. Qed.

(** C1, as the code has it: adding under a name that is already stored is
    refused by the UNIQUE constraint.  [add_password] raises IntegrityError and
    leaves the database as it was; with unique names, the one record of that
    name is still the earlier one, with its earlier login and secret. *)
Theorem add_password_existing_name_refused
        (d : Database) (n l : str) (encrypted : bytes) (r : Row) :
  In r (passwords d) -> name r = n -> encodable n -> encodable l ->
  add_password n l encrypted d = (Raise IntegrityError, d)
  /\ (unique_names d ->
      filter (has_name n) (passwords (snd (add_password n l encrypted d))) = [r]).
Proof.
  intros Hin Hn Hen Hel.
  assert (E : add_password n l encrypted d = (Raise IntegrityError, d)).
  { unfold add_password.
    rewrite (bind_text_Return n Hen). cbn [bind].
    rewrite (bind_text_Return l Hel).
    replace (existsb (has_name n) (passwords d)) with true; [reflexivity|].
    symmetry. apply existsb_has_name. rewrite <- Hn. now apply in_map. }
  split; [exact E|]. intros Hu. rewrite E. cbn [snd].
  now apply filter_unique.
Qed.

Lemma add_password_existing_name_refused_witness :
  add_password (py "github") (py "bob") [x79] one_credential
  = (Raise IntegrityError, one_credential)
  /\ (unique_names one_credential ->
      filter (has_name (py "github"))
        (passwords (snd (add_password (py "github") (py "bob") [x79] one_credential)))
      = [github_row]).
Proof.
  apply (add_password_existing_name_refused one_credential (py "github")
           (py "bob") [x79] github_row).
  - left. reflexivity.
  - reflexivity.
  - apply encodable_lit_github.
  - apply encodable_lit_github.
Defined.

(** Whatever the login, also one that cannot be bound: the call raises and
    the database is left as it was. *)
Lemma add_password_existing_name_raises
      (d : Database) (n l : str) (encrypted : bytes) (r : Row) :
  In r (passwords d) -> name r = n ->
  exists e, add_password n l encrypted d = (Raise e, d).
Proof.
  intros Hin Hn. unfold add_password.
  destruct (_ <- bind_text n ;; bind_text l) as [[]|e]; [|now exists e].
  exists IntegrityError.
  replace (existsb (has_name n) (passwords d)) with true; [reflexivity|].
  symmetry. apply existsb_has_name. rewrite <- Hn. now apply in_map.
Qed.

(** C1 as stated fails: after adding ("github", "bob", b"y") to a store that
    holds ("github", "alice", b"x"), the record still has the earlier login
    and secret, and the call has raised. *)
Lemma add_password_keeps_prior_record :
  fst (add_password (py "github") (py "bob") [x79] one_credential)
  = Raise IntegrityError
  /\ map (fun r => (name r, login r, password_encrypted r))
       (passwords (snd (add_password (py "github") (py "bob") [x79] one_credential)))
     = [(py "github", py "alice", [x78])].
Proof. split; reflexivity. Qed.

(** A new name is appended, and the names stay unique. *)
Lemma add_password_new_name (d : Database) (n l : str) (encrypted : bytes) :
  ~ In n (map name (passwords d)) -> encodable n -> encodable l ->
  exists d', add_password n l encrypted d = (Return tt, d')
             /\ map name (passwords d') = map name (passwords d) ++ [n]
             /\ (unique_names d -> unique_names d').
Proof.
  intros Hn Hen Hel. unfold add_password.
  rewrite (bind_text_Return n Hen). cbn [bind].
  rewrite (bind_text_Return l Hel).
  rewrite (proj2 (existsb_has_name_false n (passwords d)) Hn).
  eexists. split; [reflexivity|]. cbn [passwords]. rewrite map_app. cbn [map name].
  split; [reflexivity|]. unfold unique_names. cbn [passwords].
  rewrite map_app. cbn [map name]. intros Hu.
  apply NoDup_app; [exact Hu|repeat constructor; auto|].
  intros x Hx [<-|[]]. contradiction.
Qed.

Lemma delete_password_unique (d : Database) (n : str) :
  unique_names d -> unique_names (snd (delete_password n d)).
Proof.
  unfold unique_names, delete_password. intros Hu.
  destruct (bind_text n); cbn [snd passwords]; [|exact Hu].
  induction (passwords d) as [|r rs IH]; cbn; [constructor|].
  inversion Hu as [|? ? Hnot Hu']; subst.
  destruct (negb (has_name n r)); cbn; [|now apply IH].
  constructor; [|now apply IH].
  intros Hin. apply Hnot. apply in_map_iff in Hin as [r' [E Hr']].
  apply filter_In in Hr' as [Hr' _]. rewrite <- E. now apply in_map.
Qed.

(** The order of SQLite on five sample names: "B" < "a" < "b" < "z\0a" < "é". *)
Example list_passwords_sample :
  let row i n := {| row_id := i; name := n; login := py "l";
                    password_encrypted := [x78] |} in
  list_passwords
    {| master := None;
       passwords := [row 1 (py "b"); row 2 (py "a"); row 3 (py "B");
                     row 4 (py "é"); row 5 [122; 0; 97]];
       sqlite_sequence := 5 |}
  = [(py "B", py "l"); (py "a", py "l"); (py "b", py "l");
     ([122; 0; 97], py "l"); (py "é", py "l")].
Proof. vm_compute. reflexivity. Qed.

(** C7: the listing is the (name, login) columns of the stored rows, in
    ascending order of name, and it does not depend on the encrypted secrets:
    rewriting every [password_encrypted] blob leaves the listing the same. *)
Theorem list_passwords_sorted_names_and_logins (d : Database) :
  StronglySorted (fun a b => name_leb (fst a) (fst b) = true) (list_passwords d)
  /\ Permutation (list_passwords d)
       (map (fun r => (name r, login r)) (passwords d))
  /\ (forall f : Row -> bytes, list_passwords (with_blobs f d) = list_passwords d).
Proof.
  unfold list_passwords. repeat split.
  - apply StronglySorted_map with (R := row_le); [tauto|].
    apply order_by_name_sorted.
  - apply Permutation_map, order_by_name_perm.
  - intros f. cbn [with_blobs passwords].
    rewrite order_by_name_with_blob, map_map. reflexivity.
Qed.




(** C9: with no master record, verification returns [False] for every
    candidate, also for one that could not be hashed. *)
Theorem verify_master_password_no_record (d : Database) (candidate : str) :
  get_master_password d = None ->
  verify_master_password candidate d = Return false.
Proof. intros H. unfold verify_master_password. now rewrite H. Qed.

Lemma verify_master_password_no_record_witness :
  verify_master_password [0xD800] empty = Return false.
Proof.
  apply (verify_master_password_no_record empty [0xD800]). reflexivity.
Defined.

End StoreProperties.

(** ** Master-password verification *)

Module VerifyProperties.
Import DatabaseManager DatabaseFacts Scenario.


(** C5, as the code has it: the candidate is hashed with the stored salt and
    the digest compared with the stored one.  [verify(p)] is [True]; for any
    [q], [verify(q)] is [True] exactly when the digest of [q + salt] is the
    stored digest, so it is [False] for every [q] whose digest differs. *)
Theorem verify_master_password_compares_digests
        (d : Database) (p t h : str) :
  get_master_password d = Some {| password_hash := h; salt := t |} ->
  _hash_password p t = Return h ->
  verify_master_password p d = Return true
  /\ (forall q, verify_master_password q d
                = (hq <- _hash_password q t ;; Return (str_eqb hq h)))
  /\ (forall q hq, _hash_password q t = Return hq -> hq <> h ->
                   verify_master_password q d = Return false).
Proof.
  intros Hm Hp.
  assert (E : forall q, verify_master_password q d
                        = (hq <- _hash_password q t ;; Return (str_eqb hq h))).
  { intros q. unfold verify_master_password. now rewrite Hm. }
  repeat split.
  - rewrite E, Hp. cbn [bind]. now rewrite str_eqb_refl.
  - exact E.
  - intros q hq Hq Hne. rewrite E, Hq. cbn [bind].
    now rewrite (proj2 (str_eqb_neq hq h) Hne).
Qed.

Lemma sunflower_hashed : _hash_password sunflower a_salt = Return sunflower_hash.
Proof. vm_compute. reflexivity. Qed.

Lemma verify_master_password_compares_digests_witness :
  verify_master_password sunflower (with_master sunflower_hash a_salt) = Return true
  /\ (forall q, verify_master_password q (with_master sunflower_hash a_salt)
                = (hq <- _hash_password q a_salt ;;
                   Return (str_eqb hq sunflower_hash)))
  /\ (forall q hq, _hash_password q a_salt = Return hq -> hq <> sunflower_hash ->
                   verify_master_password q (with_master sunflower_hash a_salt)
                   = Return false).
Proof.
  apply (verify_master_password_compares_digests
           (with_master sunflower_hash a_salt) sunflower a_salt sunflower_hash).
  - reflexivity.
  - vm_compute. reflexivity.
Defined.


Lemma a_times_encodable n t : encodable t -> encodable (a_times n ++ t).
Proof.
  intros Ht. apply Utf8Facts.encodable_app; [|exact Ht].
  unfold a_times. induction n; cbn; constructor; auto.
Qed.


Lemma digest_of_range t n :
  encodable t ->
  In (digest_of t n) (words_of Sha256.hex_alphabet 64).
Proof.
  intros Ht. unfold digest_of.
  destruct (hash_password_Return (a_times n) t (a_times_encodable n t Ht))
    as (b & _ & ->).
  unfold Sha256.sha256_hex.
  rewrite <- (Sha256Facts.hexdigest_length (Sha256.digest b)).
  apply Pigeonhole.in_words_of, Sha256Facts.hexdigest_alphabet.
Qed.

(** Digests are 64 hexadecimal digits, passwords are unbounded: two different
    passwords have the same salted digest, and each verifies against the
    record of the other. *)
Lemma two_passwords_one_digest (t : str) :
  encodable t ->
  exists p q h,
    q <> p /\ _hash_password p t = Return h
    /\ verify_master_password q (with_master h t) = Return true.
Proof.
  intros Ht.
  destruct (Pigeonhole.pigeonhole (list_eq_dec N.eq_dec) (digest_of t)
              (words_of Sha256.hex_alphabet 64)
              (fun n => digest_of_range t n Ht)) as (i & j & Hij & E).
  unfold digest_of in E.
  destruct (hash_password_Return (a_times i) t (a_times_encodable i t Ht))
    as (bi & _ & Hi).
  destruct (hash_password_Return (a_times j) t (a_times_encodable j t Ht))
    as (bj & _ & Hj).
  rewrite Hi, Hj in E.
  exists (a_times i), (a_times j), (Sha256.sha256_hex bi). repeat split.
  - intros Eq. apply (f_equal (@length N)) in Eq. unfold a_times in Eq.
    rewrite !repeat_length in Eq. lia.
  - exact Hi.
  - unfold verify_master_password. cbn [get_master_password master salt password_hash with_master].
    rewrite Hj. cbn [bind]. rewrite <- E. now rewrite str_eqb_refl.
Qed.

(** C5 as stated fails twice over.  A candidate that holds a lone surrogate
    makes [verify] raise instead of returning [False]; and some candidate
    other than the master password verifies, its digest being the same. *)
Lemma verify_master_password_other_candidates :
  (_hash_password sunflower a_salt = Return sunflower_hash
   /\ [0xD800] <> sunflower
   /\ verify_master_password [0xD800] (with_master sunflower_hash a_salt)
      = Raise UnicodeEncodeError)
  /\ (exists p q h,
        q <> p /\ _hash_password p a_salt = Return h
        /\ verify_master_password q (with_master h a_salt) = Return true).
Proof.
  split.
  - split; [apply sunflower_hashed|]. split.
    + intros E. vm_compute in E. discriminate.
    + vm_compute. reflexivity.
  - apply two_passwords_one_digest. repeat constructor.
Qed.

End VerifyProperties.

(** ** Encryption round trip *)

Module EncryptionProperties.
Import Scenario ReferenceFernet.

(** C4, as the code has it: for a secret that [str.encode()] accepts (no lone
    surrogate), decrypting what [encrypt] returned under the same key gives
    the secret back. *)
Theorem decrypt_encrypt_encodable
        {F : FernetLib} (k : bytes) (now : N) (iv : bytes) (s : str) :
  valid_key k = true -> length iv = 16%nat -> now < 2 ^ 64 ->
  is_str s -> encodable s ->
  (token <- EncryptionManager.encrypt k now iv s ;;
   EncryptionManager.decrypt k token) = Return s.
Proof.
  intros Hk Hiv Hnow Hs He.
  destruct (Utf8Facts.encode_Return s He) as [b Hb].
  unfold EncryptionManager.encrypt, EncryptionManager.decrypt.
  rewrite Hb. cbn [bind].
  rewrite (decrypt_encrypt k now iv b Hk Hiv Hnow).
  now apply Utf8Facts.decode_encode.
Qed.


Lemma decrypt_encrypt_encodable_witness :
  (token <- EncryptionManager.encrypt a_key 1700000000 an_iv (py "p@ss") ;;
   EncryptionManager.decrypt a_key token) = Return (py "p@ss").
Proof.
  apply (decrypt_encrypt_encodable (F := reference) a_key 1700000000 an_iv
           (py "p@ss")).
  - reflexivity.
  - reflexivity.
  - reflexivity.
  - repeat constructor; vm_compute; discriminate.
  - repeat constructor.
Defined.

(** Whatever the Fernet implementation, a secret with a lone surrogate is
    refused before anything is encrypted. *)
Lemma encrypt_not_encodable
      {F : FernetLib} (k : bytes) (now : N) (iv : bytes) (s : str) :
  ~ encodable s ->
  EncryptionManager.encrypt k now iv s = Raise UnicodeEncodeError.
Proof.
  intros H. unfold EncryptionManager.encrypt.
  now rewrite Utf8Facts.encode_Raise.
Qed.

(** C4 as stated fails on the one-character string U+D800:
    [encrypt] raises, so there is nothing to decrypt. *)
Lemma decrypt_encrypt_lone_surrogate :
  is_str [0xD800]
  /\ (token <- EncryptionManager.encrypt a_key 1700000000 an_iv [0xD800] ;;
      EncryptionManager.decrypt a_key token) = Raise UnicodeEncodeError.
Proof. split; [repeat constructor; vm_compute; discriminate|reflexivity]. Qed.

End EncryptionProperties.

(** ** The password generator *)

Module GeneratorProperties.
Import PasswordGenerator Scenario ReferenceFernet.


(** [int] on sample lines, as Python evaluates them. *)
Example int_samples :
  int (py "0") = Return 0%Z /\ int (py " 12 ") = Return 12%Z
  /\ int (py "+7") = Return 7%Z /\ int (py "-0") = Return 0%Z
  /\ int (py "-3") = Return (-3)%Z /\ int (py "1_000") = Return 1000%Z
  /\ int (py "_1") = Raise ValueError /\ int (py "1__0") = Raise ValueError
  /\ int (py "1_") = Raise ValueError /\ int [] = Raise ValueError
  /\ int (py "  ") = Raise ValueError /\ int (py "0x10") = Raise ValueError
  /\ int (py "1.5") = Raise ValueError /\ int [0x1C; 53] = Raise ValueError.
Proof. vm_compute. repeat split. Qed.








End GeneratorProperties.

(** ** The session: set-up, authentication, menu *)

Module SessionProperties.
Import DatabaseManager PasswordGenerator Scenario ReferenceFernet.

(** Normalises a goal about worlds built from [w] by the setters. *)
Ltac world_simpl w :=
  destruct w as [? ? ? ? ? ? ? ? ?];
  cbv [set_db set_key set_stdin write advance
       db calls key_file key stdin output rand drawn clock].

Lemma bindM_Return {A B} (m : M A) (k : A -> M B) w a w' :
  m w = Done (Return a) w' -> bindM m k w = k a w'.
Proof. intros H. unfold bindM. now rewrite H. Qed.

Lemma bindM_Raise {A B} (m : M A) (k : A -> M B) w e w' :
  m w = Done (Raise e) w' -> bindM m k w = Done (Raise e) w'.
Proof. intros H. unfold bindM. now rewrite H. Qed.

Lemma bindM_assoc {A B C} (m : M A) (k : A -> M B) (h : B -> M C) w :
  bindM (bindM m k) h w = bindM m (fun a => bindM (k a) h) w.
Proof. unfold bindM. now destruct (m w) as [[a|e] w'|]. Qed.

Lemma input_line prompt w l r :
  stdin w = l :: r ->
  input prompt w = Done (Return l) (set_stdin r (write prompt w)).
Proof. intros H. unfold input. now rewrite H. Qed.

Lemma input_eof prompt w :
  stdin w = [] -> input prompt w = Done (Raise EOFError) (write prompt w).
Proof. intros H. unfold input. now rewrite H. Qed.




Section WithFernet.
Context {F : FernetLib}.

Lemma authenticate_refused n w p lines :
  stdin w = p :: lines ->
  verify_master_password p (db w) = Return false ->
  authenticate_from (S n) w
  = authenticate_from n
      (write wrong_password
         (set_db CallVerify (db w) (set_stdin lines (write password_prompt w)))).
Proof.
  intros Hin Hv. cbn [authenticate_from]. unfold bindM at 1, getpass.
  rewrite (input_line _ w p lines Hin).
  unfold bindM at 1, on_db.
  change (db (set_stdin lines (write _ w))) with (db w).
  rewrite Hv. reflexivity.
Qed.

Lemma authenticate_accepted n w p lines :
  stdin w = p :: lines ->
  verify_master_password p (db w) = Return true ->
  authenticate_from (S n) w
  = Done (Return tt)
      (set_db CallVerify (db w) (set_stdin lines (write password_prompt w))).
Proof.
  intros Hin Hv. cbn [authenticate_from]. unfold bindM at 1, getpass.
  rewrite (input_line _ w p lines Hin).
  unfold bindM at 1, on_db.
  change (db (set_stdin lines (write _ w))) with (db w).
  rewrite Hv. reflexivity.
Qed.

(** A third attempt that verifies is still accepted. *)
Lemma third_attempt_accepted w p1 p2 p3 lines :
  stdin w = p1 :: p2 :: p3 :: lines ->
  verify_master_password p1 (db w) = Return false ->
  verify_master_password p2 (db w) = Return false ->
  verify_master_password p3 (db w) = Return true ->
  exists w', authenticate w = Done (Return tt) w'
             /\ db w' = db w /\ stdin w' = lines.
Proof.
  intros Hin H1 H2 H3. unfold authenticate.
  rewrite (authenticate_refused 2 w p1 (p2 :: p3 :: lines) Hin H1).
  rewrite (authenticate_refused 1 _ p2 (p3 :: lines)); [|reflexivity|exact H2].
  rewrite (authenticate_accepted 0 _ p3 lines); [|reflexivity|exact H3].
  now eexists.
Qed.

(** C6: three refused passwords in a row end the session.  [authenticate]
    raises SystemExit; it is not caught, so the process ends with status 1;
    the menu is never entered: the world is left as the third refusal left
    it, with the database unchanged and no call on the store after the third
    verification. *)
Theorem three_refusals_end_the_session
        (fuel : nat) (w0 w : world) (p1 p2 p3 : str) (lines : list str) :
  (new_crypto ;;; setup_master_password fuel) w0 = Done (Return tt) w ->
  stdin w = p1 :: p2 :: p3 :: lines ->
  verify_master_password p1 (db w) = Return false ->
  verify_master_password p2 (db w) = Return false ->
  verify_master_password p3 (db w) = Return false ->
  authenticate w = Done (Raise (SystemExit too_many_attempts)) (locked w lines)
  /\ main fuel w0 = Done (Raise (SystemExit too_many_attempts)) (locked w lines)
  /\ exit_status (main fuel w0) = Some 1.
Proof.
  intros Hpre Hin H1 H2 H3.
  assert (Ha : authenticate w
               = Done (Raise (SystemExit too_many_attempts)) (locked w lines)).
  { unfold authenticate.
    rewrite (authenticate_refused 2 w p1 (p2 :: p3 :: lines) Hin H1).
    rewrite (authenticate_refused 1 _ p2 (p3 :: lines)); [|reflexivity|exact H2].
    rewrite (authenticate_refused 0 _ p3 lines); [|reflexivity|exact H3].
    cbn [authenticate_from]. unfold raise, locked. clear. world_simpl w.
    rewrite <- !app_assoc. reflexivity. }
  assert (Hm : main fuel w0
               = Done (Raise (SystemExit too_many_attempts)) (locked w lines)).
  { unfold main. apply bindM_Raise. unfold init.
    rewrite <- bindM_assoc. now rewrite (bindM_Return _ _ _ _ _ Hpre). }
  split; [exact Ha|]. split; [exact Hm|]. now rewrite Hm.
Qed.

(** *** Retrieval *)

(** C2, as the code has it: when the stored blob of the requested credential
    does not decrypt, InvalidToken leaves [get_password] and the menu loop
    uncaught.  Only the prompts were printed (no message about the failure,
    no login), and the process ends with status 1. *)
Theorem decryption_failure_is_not_caught
        (fuel : nat) (w : world) (n : str) (lines : list str) (r : Row) :
  stdin w = py "2" :: n :: lines ->
  DatabaseManager.get_password n (db w) = Return (Some r) ->
  fernet_decrypt (key w) (password_encrypted r) = None ->
  PasswordGenerator.get_password (set_stdin (n :: lines) w)
  = Done (Raise InvalidToken)
         (set_db (CallGet n) (db w) (set_stdin lines (write name_prompt w)))
  /\ show_menu (S fuel) w = Done (Raise InvalidToken) (retrieval_failed w n lines)
  /\ exit_status (show_menu (S fuel) w) = Some 1.
Proof.
  intros Hin Hrow Hdec.
  assert (Hget : forall w1, stdin w1 = n :: lines -> db w1 = db w -> key w1 = key w ->
            PasswordGenerator.get_password w1
            = Done (Raise InvalidToken)
                (set_db (CallGet n) (db w) (set_stdin lines (write name_prompt w1)))).
  { intros w1 Hin1 Hdb1 Hkey1. unfold PasswordGenerator.get_password.
    rewrite (bindM_Return _ _ _ _ _ (input_line _ w1 n lines Hin1)).
    unfold bindM at 1, on_db.
    change (db (set_stdin lines (write _ w1))) with (db w1).
    rewrite Hdb1, Hrow. unfold bindM, crypto_decrypt, EncryptionManager.decrypt.
    change (key (set_db _ _ (set_stdin lines (write _ w1)))) with (key w1).
    now rewrite Hkey1, Hdec. }
  assert (Hmenu : show_menu (S fuel) w
                  = Done (Raise InvalidToken) (retrieval_failed w n lines)).
  { cbn [show_menu]. unfold bindM at 1, print.
    rewrite (bindM_Return _ _ _ _ _
               (input_line _ (write _ w) (py "2") (n :: lines) Hin)).
    unfold dispatch.
    change (str_eqb (py "2") (py "1")) with false.
    change (str_eqb (py "2") (py "2")) with true. cbv iota.
    apply bindM_Raise. rewrite Hget by reflexivity.
    unfold retrieval_failed, name_prompt. clear. world_simpl w.
    rewrite <- !app_assoc. reflexivity. }
  split; [exact (Hget (set_stdin (n :: lines) w) eq_refl eq_refl eq_refl)|].
  split; [exact Hmenu|]. now rewrite Hmenu.
Qed.

(** *** First-run set-up *)


Lemma setup_round_two again w p1 p2 lines :
  stdin w = p1 :: p2 :: lines ->
  setup_round again w
  = (if negb (str_eqb p1 []) && str_eqb p1 p2
     then accept p1
     else print mismatch ;;; again) (asked w p2 lines).
Proof.
  intros Hin. unfold setup_round, getpass.
  rewrite (bindM_Return _ _ _ _ _ (input_line _ w p1 (p2 :: lines) Hin)).
  rewrite (bindM_Return _ _ _ _ _
             (input_line _ (set_stdin (p2 :: lines) (write _ w)) p2 lines eq_refl)).
  reflexivity.
Qed.

Lemma setup_round_eof again w :
  (length (stdin w) < 2)%nat ->
  exists w', setup_round again w = Done (Raise EOFError) w'
             /\ db w' = db w /\ stdin w' = [].
Proof.
  intros Hlen. unfold setup_round, getpass.
  destruct (stdin w) as [|p1 [|p2 lines]] eqn:Hin; [| |cbn in Hlen; lia].
  - rewrite (bindM_Raise _ _ _ _ _ (input_eof _ w Hin)). now eexists.
  - rewrite (bindM_Return _ _ _ _ _ (input_line _ w p1 [] Hin)).
    rewrite (bindM_Raise _ _ _ _ _
               (input_eof _ (set_stdin [] (write _ w)) eq_refl)).
    now eexists.
Qed.

(** The record that [accept p] leaves, if it leaves one. *)
Lemma accept_outcome p w :
  exists r w',
    accept p w = Done r w'
    /\ stdin w' = stdin w
    /\ (get_master_password (db w') = get_master_password (db w)
        \/ exists token h,
             _hash_password p token = Return h
             /\ get_master_password (db w')
                = Some {| password_hash := h; salt := token |}).
Proof.
  unfold accept, token_hex, urandom, bindM, ret, on_db, print, set_master_password.
  change (db (advance 16 w)) with (db w).
  set (token := Sha256.bytes_hex (random_bytes 16 w)).
  destruct (_hash_password p token) as [hashed|e] eqn:Hh.
  - destruct (bind (bind_text hashed) (fun _ => bind_text token)) as [[]|e] eqn:Hb.
    + do 2 eexists. split; [reflexivity|].
      split; [reflexivity|]. right. exists token, hashed. now split.
    + do 2 eexists. split; [reflexivity|].
      split; [reflexivity|]. now left.
  - do 2 eexists. split; [reflexivity|].
    split; [reflexivity|]. now left.
Qed.

Lemma setup_loop_persists fuel : forall w r w',
  get_master_password (db w) = None ->
  setup_loop fuel w = Done r w' ->
  get_master_password (db w') = None
  \/ exists pre p post token h,
       stdin w = pre ++ p :: p :: post /\ Nat.Even (length pre) /\ p <> []
       /\ _hash_password p token = Return h
       /\ get_master_password (db w')
          = Some {| password_hash := h; salt := token |}.
Proof.
  induction fuel as [|fuel IH]; intros w r w' Hnone Hrun; [discriminate|].
  cbn [setup_loop] in Hrun.
  destruct (stdin w) as [|p1 [|p2 lines]] eqn:Hin.
  1, 2: destruct (setup_round_eof (setup_loop fuel) w) as (w1 & E & Hdb & _);
    [rewrite Hin; cbn; lia|];
    rewrite E in Hrun; injection Hrun as _ <-; left; now rewrite Hdb.
  rewrite (setup_round_two _ w p1 p2 lines Hin) in Hrun.
  destruct (negb (str_eqb p1 []) && str_eqb p1 p2) eqn:Htest.
  - apply andb_prop in Htest as [Hne Heq].
    apply negb_true_iff, str_eqb_neq in Hne. apply str_eqb_eq in Heq. subst p2.
    destruct (accept_outcome p1 (asked w p1 lines)) as (r1 & w1 & E & _ & Hm).
    rewrite E in Hrun. injection Hrun as _ <-.
    destruct Hm as [Hm|(token & h & Hh & Hm)].
    + left. rewrite Hm. exact Hnone.
    + right. exists [], p1, lines, token, h.
      repeat split; try assumption. now exists 0%nat.
  - unfold bindM at 1, print in Hrun.
    apply IH in Hrun; [|exact Hnone].
    destruct Hrun
      as [Hrun|(pre & p & post & token & h & Hs & [k Hk] & Hp & Hh & Hm)].
    + now left.
    + right. exists (p1 :: p2 :: pre), p, post, token, h.
      change (stdin (write mismatch (asked w p2 lines))) with lines in Hs.
      repeat split; try assumption.
      * now rewrite Hs.
      * exists (S k). cbn [length]. lia.
Qed.

(** C10: set-up stores a master password only for a first entry that is not
    empty and is repeated by the second entry of the same round (an even
    number of lines was read before it); two empty entries are refused, with
    the message and a new round; so the master record that set-up stores is
    never computed from the empty password. *)
Theorem setup_stores_only_a_repeated_nonempty_entry :
  (forall fuel w r w',
      get_master_password (db w) = None ->
      setup_master_password fuel w = Done r w' ->
      get_master_password (db w') = None
      \/ exists pre p post token h,
           stdin w = pre ++ p :: p :: post /\ Nat.Even (length pre) /\ p <> []
           /\ _hash_password p token = Return h
           /\ get_master_password (db w')
              = Some {| password_hash := h; salt := token |})
  /\ (forall fuel w lines,
        stdin w = [] :: [] :: lines ->
        setup_loop (S fuel) w
        = setup_loop fuel (write mismatch (asked w [] lines))).
Proof.
  split.
  - intros fuel w r w' Hnone Hrun. unfold setup_master_password in Hrun.
    unfold bindM at 1, on_db in Hrun. rewrite Hnone in Hrun.
    unfold bindM at 1, print in Hrun.
    apply setup_loop_persists in Hrun; [exact Hrun|exact Hnone].
  - intros fuel w lines Hin. cbn [setup_loop].
    now rewrite (setup_round_two _ w [] [] lines Hin).
Qed.

(** *** Enough fuel

    Every round of the two loops reads a line or ends, so a bound above the
    number of lines is never reached. *)

Lemma steady_ret {A} (a : A) : steady (ret a).
Proof. intros w. now exists (Return a), w. Qed.

Lemma steady_raise {A} e : steady (@raise A e).
Proof. intros w. now exists (Raise e), w. Qed.

Lemma steady_print s : steady (print s).
Proof. intros w. now exists (Return tt), (write s w). Qed.

Lemma steady_input p : steady (input p).
Proof.
  intros w. unfold input. destruct (stdin w) as [|l r] eqn:E.
  - do 2 eexists. split; [reflexivity|]. cbn. rewrite E. cbn. lia.
  - do 2 eexists. split; [reflexivity|]. cbn. lia.
Qed.

Lemma steady_bind {A B} (m : M A) (k : A -> M B) :
  steady m -> (forall a, steady (k a)) -> steady (bindM m k).
Proof.
  intros Hm Hk w. unfold bindM.
  destruct (Hm w) as ([a|e] & w1 & -> & H1).
  - destruct (Hk a w1) as (r & w2 & -> & H2). exists r, w2. split; [reflexivity|lia].
  - now exists (Raise e), w1.
Qed.

Lemma steady_on_db {A} c (f : Database -> result A * Database) :
  steady (on_db c f).
Proof.
  intros w. unfold on_db. destruct (f (db w)) as [r d].
  now exists r, (set_db c d w).
Qed.

Lemma steady_state {A} (f : world -> result A) (g : world -> world) :
  (forall w, stdin (g w) = stdin w) -> steady (fun w => Done (f w) (g w)).
Proof. intros Hg w. do 2 eexists. split; [reflexivity|]. now rewrite Hg. Qed.

Lemma steady_draw n : steady (draw n).
Proof.
  induction n as [|n IH]; cbn [draw]; [apply steady_ret|].
  apply steady_bind; [now apply steady_state|]. intros c.
  apply steady_bind; [exact IH|]. intros s. apply steady_ret.
Qed.

Lemma steady_print_rows rows : steady (print_rows rows).
Proof.
  induction rows as [|[n l] rows IH]; cbn [print_rows]; [apply steady_ret|].
  apply steady_bind; [apply steady_print|]. intros _. exact IH.
Qed.

Lemma steady_crypto_encrypt data : steady (crypto_encrypt data).
Proof.
  intros w. unfold crypto_encrypt.
  destruct (EncryptionManager.encrypt _ _ _ _); now do 2 eexists.
Qed.

Lemma steady_add_password : steady add_password.
Proof.
  unfold add_password.
  repeat first [ apply steady_bind; [|intros ?]
               | apply steady_input | apply steady_print | apply steady_on_db
               | apply steady_crypto_encrypt ].
Qed.

Lemma steady_get_password : steady PasswordGenerator.get_password.
Proof.
  unfold PasswordGenerator.get_password.
  apply steady_bind; [apply steady_input|]. intros n.
  apply steady_bind; [apply steady_on_db|]. intros [r|]; [|apply steady_print].
  apply steady_bind; [now apply steady_state|]. intros password.
  apply steady_bind; [apply steady_print|]. intros _. apply steady_print.
Qed.

Lemma steady_list_passwords : steady PasswordGenerator.list_passwords.
Proof.
  unfold PasswordGenerator.list_passwords.
  apply steady_bind; [apply steady_on_db|].
  intros [|row rows]; [apply steady_print|apply steady_print_rows].
Qed.

Lemma steady_delete_password : steady PasswordGenerator.delete_password.
Proof.
  unfold PasswordGenerator.delete_password.
  repeat first [ apply steady_bind; [|intros ?]
               | apply steady_input | apply steady_print | apply steady_on_db ].
Qed.

Lemma steady_generate : steady generate_password_interactive.
Proof.
  unfold generate_password_interactive.
  apply steady_bind; [apply steady_input|]. intros line.
  apply steady_bind; [now apply steady_state|]. intros n.
  apply steady_bind; [apply steady_draw|]. intros s. apply steady_print.
Qed.

Lemma steady_authenticate n : steady (authenticate_from n).
Proof.
  induction n as [|n IH]; cbn [authenticate_from]; [apply steady_raise|].
  apply steady_bind; [apply steady_input|]. intros pwd.
  apply steady_bind; [apply steady_on_db|]. intros [|]; [apply steady_ret|].
  apply steady_bind; [apply steady_print|]. intros _. exact IH.
Qed.

Lemma steady_accept p : steady (accept p).
Proof.
  unfold accept, token_hex.
  repeat first [ apply steady_bind; [|intros ?]
               | apply steady_print | apply steady_on_db | apply steady_ret
               | now apply steady_state ].
Qed.

Lemma steady_new_crypto : steady new_crypto.
Proof.
  intros w. unfold new_crypto.
  destruct (EncryptionManager.init _ _) as [[k|e] kf];
    do 2 eexists; (split; [reflexivity|]); destruct (key_file w); cbn; lia.
Qed.

(** With more fuel than lines to read, the set-up loop ends. *)
Lemma setup_loop_enough fuel : forall w,
  (length (stdin w) < fuel)%nat ->
  exists r w', setup_loop fuel w = Done r w'
               /\ (length (stdin w') <= length (stdin w))%nat.
Proof.
  induction fuel as [|fuel IH]; intros w Hlen; [lia|]. cbn [setup_loop].
  destruct (stdin w) as [|p1 [|p2 lines]] eqn:Hin.
  1, 2: destruct (setup_round_eof (setup_loop fuel) w) as (w1 & E & _ & Hs);
    [rewrite Hin; cbn; lia|];
    rewrite E; exists (Raise EOFError), w1; (split; [reflexivity|]);
    rewrite Hs; cbn; lia.
  rewrite (setup_round_two _ w p1 p2 lines Hin).
  destruct (negb (str_eqb p1 []) && str_eqb p1 p2).
  - destruct (steady_accept p1 (asked w p2 lines)) as (r & w' & E & Hle).
    exists r, w'. split; [exact E|]. cbn in Hle. cbn. lia.
  - unfold bindM at 1, print.
    destruct (IH (write mismatch (asked w p2 lines))) as (r & w' & E & Hle).
    + cbn. cbn in Hlen. lia.
    + exists r, w'. split; [exact E|]. cbn in Hle. cbn. lia.
Qed.

(** With more fuel than lines to read, the menu loop ends. *)
Lemma show_menu_enough fuel : forall w,
  (length (stdin w) < fuel)%nat ->
  exists r w', show_menu fuel w = Done r w'.
Proof.
  induction fuel as [|fuel IH]; intros w Hlen; [lia|]. cbn [show_menu].
  unfold bindM at 1, print. unfold bindM at 1, input.
  change (stdin (write menu w)) with (stdin w).
  destruct (stdin w) as [|choice lines] eqn:Hin; [now do 2 eexists|].
  assert (Hop : forall op : M unit, steady op ->
            exists r w', (op ;;; show_menu fuel)
                           (set_stdin lines (write (py "> ") (write menu w)))
                         = Done r w').
  { intros op Hs. unfold bindM.
    destruct (Hs (set_stdin lines (write (py "> ") (write menu w))))
      as ([[]|e] & w1 & -> & Hle); [|now do 2 eexists].
    apply IH. cbn in Hle. cbn in Hlen. lia. }
  unfold dispatch.
  repeat match goal with
         | |- context [if ?b then _ else _] => destruct b
         end;
    first [ apply Hop;
            first [ apply steady_add_password | apply steady_get_password
                  | apply steady_list_passwords | apply steady_delete_password
                  | apply steady_generate | apply steady_print ]
          | now do 2 eexists ].
Qed.

(** The whole program ends, whatever is typed, once the fuel exceeds the
    number of lines. *)
Lemma main_enough fuel w :
  (length (stdin w) < fuel)%nat -> exists r w', main fuel w = Done r w'.
Proof.
  intros Hlen. unfold main, init.
  unfold bindM at 1. unfold bindM at 1.
  destruct (steady_new_crypto w) as ([[]|e] & w1 & -> & H1); [|now do 2 eexists].
  unfold bindM at 1. unfold setup_master_password. unfold bindM at 1, on_db.
  assert (Hsetup : exists r w2,
             match get_master_password (db w1) with
             | Some _ => ret tt
             | None => print (py "🔐 Первый запуск. Создайте мастер-пароль.") ;;;
                       setup_loop fuel
             end (set_db CallGetMaster (db w1) w1) = Done r w2
             /\ (length (stdin w2) <= length (stdin w1))%nat).
  { destruct (get_master_password (db w1)).
    - do 2 eexists. split; [reflexivity|]. cbn. lia.
    - unfold bindM at 1, print.
      destruct (setup_loop_enough fuel
                  (write (py "🔐 Первый запуск. Создайте мастер-пароль.")
                     (set_db CallGetMaster (db w1) w1)))
        as (r & w2 & E & Hle); [cbn; lia|].
      exists r, w2. split; [exact E|]. cbn in Hle. lia. }
  destruct Hsetup as ([[]|e] & w2 & -> & H2); [|now do 2 eexists].
  destruct (steady_authenticate 3 w2) as ([[]|e] & w3 & E & H3);
    unfold authenticate; rewrite E; [|now do 2 eexists].
  apply show_menu_enough. lia.
Qed.

End WithFernet.

(** *** The theorems at work on sample sessions *)

Lemma three_refusals_end_the_session_witness :
  authenticate (at_the_gate [py "a"; py "b"; py "c"; py "1"])
  = Done (Raise (SystemExit too_many_attempts))
         (locked (at_the_gate [py "a"; py "b"; py "c"; py "1"]) [py "1"])
  /\ main 5 (session [py "a"; py "b"; py "c"; py "1"])
     = Done (Raise (SystemExit too_many_attempts))
            (locked (at_the_gate [py "a"; py "b"; py "c"; py "1"]) [py "1"])
  /\ exit_status (main 5 (session [py "a"; py "b"; py "c"; py "1"])) = Some 1.
Proof.
  apply (three_refusals_end_the_session (F := reference) 5
           (session [py "a"; py "b"; py "c"; py "1"])
           (at_the_gate [py "a"; py "b"; py "c"; py "1"])
           (py "a") (py "b") (py "c") [py "1"]);
    vm_compute; reflexivity.
Defined.

Lemma decryption_failure_is_not_caught_witness :
  PasswordGenerator.get_password
    (set_stdin [py "github"; py "0"] (at_the_gate [py "2"; py "github"; py "0"]))
  = Done (Raise InvalidToken)
         (set_db (CallGet (py "github")) vault
            (set_stdin [py "0"]
               (write name_prompt (at_the_gate [py "2"; py "github"; py "0"]))))
  /\ show_menu 3 (at_the_gate [py "2"; py "github"; py "0"])
     = Done (Raise InvalidToken)
            (retrieval_failed (at_the_gate [py "2"; py "github"; py "0"])
               (py "github") [py "0"])
  /\ exit_status (show_menu 3 (at_the_gate [py "2"; py "github"; py "0"])) = Some 1.
Proof.
  apply (decryption_failure_is_not_caught (F := reference) 2
           (at_the_gate [py "2"; py "github"; py "0"]) (py "github") [py "0"]
           unreadable_row);
    vm_compute; reflexivity.
Defined.

(** C2 as stated fails: on [vault], after the master password, asking for
    "github" ends the process.  InvalidToken is uncaught, the exit status is 1,
    and nothing was printed after the prompt for the name: no message about the
    failure.  The line typed after it is never read. *)
Lemma unreadable_credential_ends_the_process :
  match main 5 (session [sunflower; py "2"; py "github"; py "0"]) with
  | Done r w =>
      r = Raise InvalidToken
      /\ output w = [password_prompt; menu; py "> "; name_prompt]
      /\ stdin w = [py "0"]
  | OutOfFuel => False
  end
  /\ exit_status (main 5 (session [sunflower; py "2"; py "github"; py "0"]))
     = Some 1.
Proof. vm_compute. repeat split. Qed.

Lemma setup_stores_only_a_repeated_nonempty_entry_witness :
  (get_master_password (db after_setup) = None
   \/ exists pre p post token h,
        stdin first_run = pre ++ p :: p :: post /\ Nat.Even (length pre)
        /\ p <> [] /\ _hash_password p token = Return h
        /\ get_master_password (db after_setup)
           = Some {| password_hash := h; salt := token |})
  /\ setup_loop 2 first_run
     = setup_loop 1 (write mismatch (asked first_run [] [sunflower; sunflower])).
Proof.
  split.
  - apply (proj1 setup_stores_only_a_repeated_nonempty_entry 5%nat first_run
             (Return tt) after_setup); vm_compute; reflexivity.
  - apply (proj2 setup_stores_only_a_repeated_nonempty_entry 1%nat first_run
             [sunflower; sunflower]). reflexivity.
Defined.

(** On [first_run] the two empty entries are refused and "Sunflower42!" is
    stored, salted with the 16 bytes drawn (all zero here). *)
Example first_run_stores_sunflower :
  get_master_password (db after_setup)
  = Some {| password_hash :=
              py "dd4742bbd9ac0bdf450e891efd5d8ef7dd31e61e1433ef193eccd78c47c2efec";
            salt := py "00000000000000000000000000000000" |}
  /\ output after_setup
     = [py "🔐 Первый запуск. Создайте мастер-пароль.";
        master_prompt; repeat_prompt; mismatch;
        master_prompt; repeat_prompt; py "✅ Мастер-пароль сохранён."].
Proof. vm_compute. split; reflexivity. Qed.

(** The scenario of the specification: first run, set-up, authentication,
    add, retrieve, list, delete, retrieve again, exit. *)
Example scenario_of_the_specification :
  match main 20 (start None None
                   [sunflower; sunflower; sunflower;
                    py "1"; py "github"; py "alice"; py "p@ss";
                    py "2"; py "github"; py "3"; py "4"; py "github";
                    py "2"; py "github"; py "0"]
                   (fun _ => 0) 1700000000) with
  | Done r w =>
      r = Return tt
      /\ filter (fun s => negb (str_eqb s menu) && negb (str_eqb s (py "> ")))
           (output w)
         = [py "🔐 Первый запуск. Создайте мастер-пароль.";
            master_prompt; repeat_prompt; py "✅ Мастер-пароль сохранён.";
            password_prompt;
            name_prompt; py "Логин: "; py "Пароль: "; py "✅ Пароль сохранён.";
            name_prompt; py "Логин: alice"; py "Пароль: p@ss";
            py "- github (alice)";
            name_prompt; py "🗑 Удалено.";
            name_prompt; py "❌ Не найдено."]
      /\ passwords (db w) = []
  | OutOfFuel => False
  end.
Proof. vm_compute. repeat split. Qed.

End SessionProperties.

(** * Further properties of the code *)

(** ** The store: how the operations compose *)

Module StoreComposition.
Import DatabaseManager DatabaseFacts Scenario.

(** The database a successful insertion leaves. *)
Definition inserted (n l : str) (encrypted : bytes) (d : Database) : Database :=
  {| master := master d;
     passwords := passwords d ++
       [{| row_id := sqlite_sequence d + 1; name := n; login := l;
           password_encrypted := encrypted |}];
     sqlite_sequence := sqlite_sequence d + 1 |}.

Lemma find_app {A} (f : A -> bool) l l' :
  find f (l ++ l') = match find f l with
                     | Some x => Some x
                     | None => find f l'
                     end.
Proof.
  induction l as [|a l IH]; cbn [app find]; [reflexivity|].
  now destruct (f a).
Qed.

Lemma find_absent n rs :
  ~ In n (map name rs) -> find (has_name n) rs = None.
Proof.
  intros H. destruct (find (has_name n) rs) as [r|] eqn:E; [|reflexivity].
  apply find_some in E as [Hin Hn]. apply str_eqb_eq in Hn.
  destruct H. rewrite <- Hn. now apply in_map.
Qed.

Lemma has_name_other n m r : name r = n -> m <> n -> has_name m r = false.
Proof. intros <- H. apply str_eqb_neq. congruence. Qed.

Lemma find_after_delete n m rs :
  find (has_name m) (filter (fun r => negb (has_name n r)) rs)
  = if str_eqb m n then None else find (has_name m) rs.
Proof.
  induction rs as [|r rs IH]; cbn [filter find]; [now destruct (str_eqb m n)|].
  destruct (has_name n r) eqn:En; cbn [negb].
  - rewrite IH. destruct (str_eqb m n) eqn:Em; [reflexivity|].
    apply str_eqb_eq in En. apply str_eqb_neq in Em.
    now rewrite (has_name_other n m r En Em).
  - cbn [find]. rewrite IH. destruct (str_eqb m n) eqn:Em; [|reflexivity].
    apply str_eqb_eq in Em. subst m. now rewrite En.
Qed.

Lemma hexdigit_encodable n : n < 16 -> is_surrogate (Sha256.hexdigit n) = false.
Proof.
  intros Hn. unfold is_surrogate, Sha256.hexdigit.
  apply andb_false_iff. left. apply N.leb_gt.
  destruct (n <? 10); lia.
Qed.

Lemma hex_alphabet_encodable c :
  In c Sha256.hex_alphabet -> is_surrogate c = false.
Proof.
  unfold Sha256.hex_alphabet. rewrite in_map_iff.
  intros (n & <- & Hn). apply in_map_iff in Hn as (k & <- & Hk).
  apply in_seq in Hk. apply hexdigit_encodable. lia.
Qed.

Lemma sha256_hex_encodable b : encodable (Sha256.sha256_hex b).
Proof.
  unfold encodable, Sha256.sha256_hex.
  eapply Forall_impl; [|apply Sha256Facts.hexdigest_alphabet].
  apply hex_alphabet_encodable.
Qed.

Lemma add_password_inserted d n l encrypted :
  ~ In n (map name (passwords d)) -> encodable n -> encodable l ->
  add_password n l encrypted d = (Return tt, inserted n l encrypted d).
Proof.
  intros Hn Hen Hel. unfold add_password.
  rewrite (bind_text_Return n Hen). cbn [bind].
  rewrite (bind_text_Return l Hel).
  now rewrite (proj2 (existsb_has_name_false n (passwords d)) Hn).
Qed.

Lemma get_password_inserted d n l encrypted :
  ~ In n (map name (passwords d)) -> encodable n ->
  get_password n (inserted n l encrypted d)
  = Return (Some {| row_id := sqlite_sequence d + 1; name := n; login := l;
                    password_encrypted := encrypted |}).
Proof.
  intros Hn Hen. unfold get_password, inserted. cbn [passwords].
  rewrite (bind_text_Return n Hen). cbn [bind].
  rewrite find_app, (find_absent n _ Hn). cbn [find]. unfold has_name.
  cbn [name]. now rewrite str_eqb_refl.
Qed.

(** X1: a credential added under a new name is found under that name, with
    the login and the blob given; what is found under any other name is as
    before. *)
Theorem add_then_get_password
        (d : Database) (n l : str) (encrypted : bytes) :
  ~ In n (map name (passwords d)) -> encodable n -> encodable l ->
  exists d' r,
    add_password n l encrypted d = (Return tt, d')
    /\ get_password n d' = Return (Some r)
    /\ name r = n /\ login r = l /\ password_encrypted r = encrypted
    /\ (forall m, m <> n -> get_password m d' = get_password m d).
Proof.
  intros Hn Hen Hel. unfold add_password.
  rewrite (bind_text_Return n Hen). cbn [bind].
  rewrite (bind_text_Return l Hel).
  rewrite (proj2 (existsb_has_name_false n (passwords d)) Hn).
  do 2 eexists. split; [reflexivity|]. unfold get_password. cbn [passwords].
  split; [|split; [|split; [|split]]].
  - rewrite (bind_text_Return n Hen). cbn [bind].
    rewrite find_app, (find_absent n _ Hn). cbn [find]. unfold has_name.
    cbn [name]. now rewrite str_eqb_refl.
  - reflexivity.
  - reflexivity.
  - reflexivity.
  - intros m Hm. f_equal. rewrite find_app. cbn [find]. unfold has_name at 2.
    cbn [name]. rewrite (proj2 (str_eqb_neq n m)) by congruence.
    now destruct (find (has_name m) (passwords d)).
Qed.

Lemma add_then_get_password_witness :
  exists d' r,
    add_password (py "gitlab") (py "bob") [x79] one_credential = (Return tt, d')
    /\ get_password (py "gitlab") d' = Return (Some r)
    /\ name r = py "gitlab" /\ login r = py "bob" /\ password_encrypted r = [x79]
    /\ (forall m, m <> py "gitlab" ->
                  get_password m d' = get_password m one_credential).
Proof.
  apply (add_then_get_password one_credential (py "gitlab") (py "bob") [x79]).
  - vm_compute. intros [H|[]]. discriminate.
  - repeat constructor.
  - repeat constructor.
Defined.

(** X2: after a deletion nothing is found under the deleted name; what is
    found under any other name, and the master record, are as before. *)
Theorem delete_then_get_password (d : Database) (n : str) :
  encodable n ->
  exists d',
    delete_password n d = (Return tt, d')
    /\ get_password n d' = Return None
    /\ (forall m, m <> n -> get_password m d' = get_password m d)
    /\ get_master_password d' = get_master_password d.
Proof.
  intros Hen. unfold delete_password. rewrite (bind_text_Return n Hen).
  eexists. split; [reflexivity|]. unfold get_password. cbn [passwords].
  split; [|split].
  - rewrite (bind_text_Return n Hen). cbn [bind].
    now rewrite find_after_delete, str_eqb_refl.
  - intros m Hm. f_equal. rewrite find_after_delete.
    now rewrite (proj2 (str_eqb_neq m n) Hm).
  - reflexivity.
Qed.

Lemma delete_then_get_password_witness :
  exists d',
    delete_password (py "github") one_credential = (Return tt, d')
    /\ get_password (py "github") d' = Return None
    /\ (forall m, m <> py "github" ->
                  get_password m d' = get_password m one_credential)
    /\ get_master_password d' = get_master_password one_credential.
Proof.
  apply (delete_then_get_password one_credential (py "github")).
  repeat constructor.
Defined.

Lemma add_password_unique d n l e :
  unique_names d -> unique_names (snd (add_password n l e d)).
Proof.
  intros Hu. unfold add_password.
  destruct (_ <- bind_text n ;; bind_text l); [|exact Hu].
  destruct (existsb (has_name n) (passwords d)) eqn:E; [exact Hu|].
  apply existsb_has_name_false in E.
  unfold unique_names. cbn [snd passwords]. rewrite map_app. cbn [map name].
  apply NoDup_app; [exact Hu|repeat constructor; auto|].
  intros x Hx [<-|[]]. contradiction.
Qed.

Lemma add_password_master d n l e :
  master (snd (add_password n l e d)) = master d.
Proof.
  unfold add_password. destruct (_ <- bind_text n ;; bind_text l); [|reflexivity].
  now destruct (existsb (has_name n) (passwords d)).
Qed.

Lemma delete_password_master d n :
  master (snd (delete_password n d)) = master d.
Proof. unfold delete_password. now destruct (bind_text n). Qed.

(** X3: the names of the stored credentials stay pairwise different under
    every operation that writes to the database, whether it succeeds or
    raises; adding and deleting credentials leave the master record alone. *)
Theorem operations_keep_names_unique (d : Database) :
  unique_names d ->
  (forall n l e, unique_names (snd (add_password n l e d))
                 /\ master (snd (add_password n l e d)) = master d)
  /\ (forall n, unique_names (snd (delete_password n d))
                /\ master (snd (delete_password n d)) = master d)
  /\ (forall p t, unique_names (snd (set_master_password p t d))).
Proof.
  intros Hu. split; [|split].
  - intros n l e. split; [now apply add_password_unique|].
    apply add_password_master.
  - intros n. split; [now apply StoreProperties.delete_password_unique|].
    apply delete_password_master.
  - intros p t. unfold set_master_password.
    destruct (_hash_password p t) as [hashed|]; [|exact Hu].
    destruct (_ <- bind_text hashed ;; bind_text t); exact Hu.
Qed.

Lemma operations_keep_names_unique_witness :
  (forall n l e, unique_names (snd (add_password n l e one_credential))
                 /\ master (snd (add_password n l e one_credential))
                    = master one_credential)
  /\ (forall n, unique_names (snd (delete_password n one_credential))
                /\ master (snd (delete_password n one_credential))
                   = master one_credential)
  /\ (forall p t, unique_names (snd (set_master_password p t one_credential))).
Proof.
  apply (operations_keep_names_unique one_credential).
  repeat constructor. cbn. tauto.
Defined.

(** X4: a master password that was set verifies.  [set_master_password]
    replaces the master record, whatever it was, by the digest of the password
    with the new salt, leaves the credentials as they were, and
    [verify_master_password] then accepts that password. *)
Theorem set_then_verify_master_password (d : Database) (p token : str) :
  encodable p -> encodable token ->
  exists d' h,
    set_master_password p token d = (Return tt, d')
    /\ get_master_password d' = Some {| password_hash := h; salt := token |}
    /\ verify_master_password p d' = Return true
    /\ passwords d' = passwords d.
Proof.
  intros Hp Ht.
  destruct (hash_password_Return p token (Utf8Facts.encodable_app _ _ Hp Ht))
    as (b & _ & Hh).
  unfold set_master_password. rewrite Hh.
  rewrite (bind_text_Return _ (sha256_hex_encodable b)). cbn [bind].
  rewrite (bind_text_Return token Ht).
  do 2 eexists. split; [reflexivity|]. split; [reflexivity|].
  split; [|reflexivity].
  unfold verify_master_password. cbn [get_master_password master salt password_hash].
  rewrite Hh. cbn [bind]. now rewrite str_eqb_refl.
Qed.

Lemma set_then_verify_master_password_witness :
  exists d' h,
    set_master_password sunflower a_salt one_credential = (Return tt, d')
    /\ get_master_password d' = Some {| password_hash := h; salt := a_salt |}
    /\ verify_master_password sunflower d' = Return true
    /\ passwords d' = passwords one_credential.
Proof.
  apply (set_then_verify_master_password one_credential sunflower a_salt);
    repeat constructor.
Defined.

(** X5: after a successful [add_password] the listing is the earlier listing
    with the new (name, login) pair put in. *)
Theorem list_passwords_after_add
        (d d' : Database) (n l : str) (encrypted : bytes) :
  add_password n l encrypted d = (Return tt, d') ->
  Permutation (list_passwords d') ((n, l) :: list_passwords d).
Proof.
  unfold add_password.
  destruct (_ <- bind_text n ;; bind_text l); [|discriminate].
  destruct (existsb (has_name n) (passwords d)); [discriminate|].
  intros [= <-]. unfold list_passwords. cbn [passwords].
  rewrite !order_by_name_perm, map_app. cbn [map name login].
  symmetry. apply Permutation_cons_append.
Qed.

Lemma list_passwords_after_add_witness :
  Permutation
    (list_passwords (snd (add_password (py "gitlab") (py "bob") [x79] one_credential)))
    ((py "gitlab", py "bob") :: list_passwords one_credential).
Proof.
  apply (list_passwords_after_add one_credential _ (py "gitlab") (py "bob") [x79]).
  reflexivity.
Defined.

(** X6: after a successful [delete_password] the listing holds exactly the
    earlier pairs whose name is not the deleted one. *)
Theorem list_passwords_after_delete (d d' : Database) (n : str) :
  delete_password n d = (Return tt, d') ->
  forall p, In p (list_passwords d')
            <-> In p (list_passwords d) /\ fst p <> n.
Proof.
  unfold delete_password. destruct (bind_text n); [|discriminate].
  intros [= <-] p. unfold list_passwords. cbn [passwords].
  rewrite !in_map_iff. split.
  - intros (r & <- & Hr).
    apply (Permutation_in _ (order_by_name_perm _)) in Hr.
    apply filter_In in Hr as [Hr Hn]. split.
    + exists r. split; [reflexivity|].
      apply (Permutation_in _ (Permutation_sym (order_by_name_perm _))), Hr.
    + cbn [fst]. apply negb_true_iff in Hn. now apply str_eqb_neq in Hn.
  - intros [(r & <- & Hr) Hn]. exists r. split; [reflexivity|].
    apply (Permutation_in _ (order_by_name_perm _)) in Hr.
    apply (Permutation_in _ (Permutation_sym (order_by_name_perm _))).
    apply filter_In. split; [exact Hr|].
    apply negb_true_iff. now apply str_eqb_neq.
Qed.

Lemma list_passwords_after_delete_witness :
  In (py "github", py "alice")
     (list_passwords (snd (delete_password (py "github") one_credential)))
  <-> In (py "github", py "alice") (list_passwords one_credential)
      /\ fst (py "github", py "alice") <> py "github".
Proof.
  apply (list_passwords_after_delete one_credential _ (py "github")).
  reflexivity.
Defined.

End StoreComposition.

(** ** The key file *)

Module KeyFile.
Import Scenario ReferenceFernet.

(** X7: the key that a first run generates and writes to the key file is
    the key every later run loads; a key file that does not hold a Fernet key
    makes the constructor raise ValueError and is left as it is. *)
Theorem key_file_written_then_loaded {F : FernetLib} (seed : bytes) :
  length seed = 32%nat ->
  EncryptionManager.init None seed
  = (Return (generate_key seed), Some (generate_key seed))
  /\ (forall seed', EncryptionManager.init (Some (generate_key seed)) seed'
                    = (Return (generate_key seed), Some (generate_key seed)))
  /\ (forall k seed', valid_key k = false ->
                      EncryptionManager.init (Some k) seed'
                      = (Raise ValueError, Some k)).
Proof.
  intros Hs. unfold EncryptionManager.init.
  rewrite (generate_key_valid seed Hs). repeat split.
  intros k seed' Hk. now rewrite Hk.
Qed.

Lemma key_file_written_then_loaded_witness :
  EncryptionManager.init None (repeat x00 32)
  = (Return (generate_key (repeat x00 32)), Some (generate_key (repeat x00 32)))
  /\ (forall seed', EncryptionManager.init (Some (generate_key (repeat x00 32))) seed'
                    = (Return (generate_key (repeat x00 32)),
                       Some (generate_key (repeat x00 32))))
  /\ (forall k seed', valid_key k = false ->
                      EncryptionManager.init (Some k) seed'
                      = (Raise ValueError, Some k)).
Proof.
  apply (key_file_written_then_loaded (F := reference) (repeat x00 32)).
  reflexivity.
Defined.

End KeyFile.

(** ** The operations of the menu *)

Module MenuOperations.
Import DatabaseManager DatabaseFacts PasswordGenerator Scenario ReferenceFernet.
Import SessionProperties StoreComposition.

Definition login_prompt : str := py "Логин: ".
Definition secret_prompt : str := py "Пароль: ".
Definition saved : str := py "✅ Пароль сохранён.".
Definition not_found : str := py "❌ Не найдено.".
Definition deleted : str := py "🗑 Удалено.".
Definition nothing_yet : str := py "Пока пусто.".

(** The line printed for one credential: [f"- {name} ({login})"]. *)
Definition credential_line (c : str * str) : str :=
  py "- " ++ fst c ++ py " (" ++ snd c ++ py ")".

(** A session on [vault] with the key loaded; the store holds the
    credential "github". *)
Definition opened (lines : list str) : world := at_the_gate lines.

(** A session on an empty store, with the key loaded. *)
Definition unlocked (lines : list str) : world :=
  set_key (Some a_key) a_key (idle lines).

Lemma random_bytes_length n w : length (random_bytes n w) = n.
Proof. unfold random_bytes. now rewrite length_map, length_seq. Qed.

Section WithFernet.
Context {F : FernetLib}.

Lemma crypto_encrypt_Return w data b :
  Utf8.encode data = Return b ->
  crypto_encrypt data w
  = Done (Return (fernet_encrypt (key w) (clock w) (random_bytes 16 w) b))
         (advance 16 w).
Proof.
  intros H. unfold crypto_encrypt, EncryptionManager.encrypt. now rewrite H.
Qed.

(** What [add_password] does with three lines and a new name. *)
Lemma add_password_new w n l p lines b :
  stdin w = n :: l :: p :: lines ->
  ~ In n (map name (passwords (db w))) ->
  encodable n -> encodable l -> Utf8.encode p = Return b ->
  PasswordGenerator.add_password w
  = Done (Return tt)
      (write saved
         (set_db (CallAdd n)
            (inserted n l
               (fernet_encrypt (key w) (clock w) (random_bytes 16 w) b) (db w))
            (advance 16
               (set_stdin lines
                  (write secret_prompt
                     (write login_prompt (write name_prompt w))))))).
Proof.
  intros Hin Hn Hen Hel Hb. unfold PasswordGenerator.add_password, getpass.
  rewrite (bindM_Return _ _ _ _ _ (input_line _ w n (l :: p :: lines) Hin)).
  rewrite (bindM_Return _ _ _ _ _
             (input_line _ (set_stdin (l :: p :: lines) (write _ w)) l
                (p :: lines) eq_refl)).
  rewrite (bindM_Return _ _ _ _ _
             (input_line _ (set_stdin (p :: lines)
                              (write _ (set_stdin (l :: p :: lines) (write _ w))))
                p lines eq_refl)).
  rewrite (bindM_Return _ _ _ _ _ (crypto_encrypt_Return _ p b Hb)).
  unfold bindM, on_db.
  match goal with
  | |- context [DatabaseManager.add_password n l ?t ?d] =>
      change d with (db w);
      rewrite (add_password_inserted (db w) n l t Hn Hen Hel)
  end.
  reflexivity.
Qed.

(** What [get_password] does with the name of a stored credential whose
    blob decrypts. *)
Lemma get_password_stored w n lines r b secret :
  stdin w = n :: lines ->
  DatabaseManager.get_password n (db w) = Return (Some r) ->
  fernet_decrypt (key w) (password_encrypted r) = Some b ->
  Utf8.decode b = Return secret ->
  PasswordGenerator.get_password w
  = Done (Return tt)
      (write (secret_prompt ++ secret)
         (write (login_prompt ++ login r)
            (set_db (CallGet n) (db w)
               (set_stdin lines (write name_prompt w))))).
Proof.
  intros Hin Hrow Hdec Hs. unfold PasswordGenerator.get_password.
  rewrite (bindM_Return _ _ _ _ _ (input_line _ w n lines Hin)).
  unfold bindM at 1, on_db.
  change (db (set_stdin lines (write _ w))) with (db w). rewrite Hrow.
  unfold bindM at 1, crypto_decrypt, EncryptionManager.decrypt.
  change (key (set_db _ _ (set_stdin lines (write _ w)))) with (key w).
  rewrite Hdec, Hs. reflexivity.
Qed.

(** X8: a credential that was added is shown when it is asked for.  With a
    valid key, after [add_password] read a new name, a login and a secret,
    [get_password] for that name prints that login and that secret. *)
Theorem add_then_get_shows_the_secret
        (w : world) (n l p : str) (lines : list str) :
  stdin w = n :: l :: p :: n :: lines ->
  ~ In n (map name (passwords (db w))) ->
  encodable n -> encodable l -> encodable p -> is_str p ->
  valid_key (key w) = true -> clock w < 2 ^ 64 ->
  exists w',
    (PasswordGenerator.add_password ;;; PasswordGenerator.get_password) w
    = Done (Return tt) w'
    /\ output w'
       = output w ++ [name_prompt; login_prompt; secret_prompt; saved;
                      name_prompt; login_prompt ++ l; secret_prompt ++ p]
    /\ stdin w' = lines.
Proof.
  intros Hin Hn Hen Hel Hep Hp Hk Hc.
  destruct (Utf8Facts.encode_Return p Hep) as [b Hb].
  rewrite (bindM_Return _ _ _ _ _
             (add_password_new w n l p (n :: lines) b Hin Hn Hen Hel Hb)).
  match goal with
  | |- context [PasswordGenerator.get_password ?w1] =>
      rewrite (get_password_stored w1 n lines _ b p eq_refl
                 (get_password_inserted (db w) n l _ Hn Hen)
                 (decrypt_encrypt (key w) (clock w) (random_bytes 16 w) b Hk
                    (random_bytes_length 16 w) Hc)
                 (Utf8Facts.decode_encode p b Hp Hb))
  end.
  eexists. split; [reflexivity|]. clear.
  unfold login_prompt, secret_prompt. world_simpl w.
  split; [|reflexivity]. cbn [login]. rewrite <- !app_assoc. reflexivity.
Qed.

Lemma add_password_duplicate d n l encrypted r :
  In r (passwords d) -> name r = n -> encodable n -> encodable l ->
  DatabaseManager.add_password n l encrypted d = (Raise IntegrityError, d).
Proof.
  intros Hin Hn Hen Hel. unfold DatabaseManager.add_password.
  rewrite (bind_text_Return n Hen). cbn [bind].
  rewrite (bind_text_Return l Hel).
  replace (existsb (has_name n) (passwords d)) with true; [reflexivity|].
  symmetry. apply existsb_has_name. rewrite <- Hn. now apply in_map.
Qed.

(** X9: choosing "1" and giving a name that is already stored ends the
    menu loop with an uncaught IntegrityError: the three entries are read, the
    database is left as it was and the message of success is not printed; the
    process ends with status 1. *)
Theorem adding_a_stored_name_ends_the_menu
        (fuel : nat) (w : world) (n l p : str) (lines : list str) (r : Row) :
  stdin w = py "1" :: n :: l :: p :: lines ->
  In r (passwords (db w)) -> name r = n ->
  encodable n -> encodable l -> encodable p ->
  exists w',
    show_menu (S fuel) w = Done (Raise IntegrityError) w'
    /\ db w' = db w
    /\ output w' = output w ++ [menu; py "> "; name_prompt; login_prompt;
                                secret_prompt]
    /\ stdin w' = lines
    /\ exit_status (show_menu (S fuel) w) = Some 1.
Proof.
  intros Hin Hr Hn Hen Hel Hep.
  destruct (Utf8Facts.encode_Return p Hep) as [b Hb].
  assert (E : exists w', show_menu (S fuel) w = Done (Raise IntegrityError) w'
                         /\ db w' = db w
                         /\ output w' = output w ++ [menu; py "> "; name_prompt;
                                                     login_prompt; secret_prompt]
                         /\ stdin w' = lines).
  { cbn [show_menu]. unfold bindM at 1, print.
    rewrite (bindM_Return _ _ _ _ _
               (input_line _ (write _ w) (py "1") (n :: l :: p :: lines) Hin)).
    unfold dispatch. change (str_eqb (py "1") (py "1")) with true. cbv iota.
    unfold PasswordGenerator.add_password, getpass.
    match goal with
    | |- context [bindM (bindM (input ?q) ?k) ?h ?w1] =>
        rewrite (bindM_assoc (input q) k h w1);
        rewrite (bindM_Return _ _ _ _ _
                   (input_line q w1 n (l :: p :: lines) eq_refl))
    end.
    match goal with
    | |- context [bindM (bindM (input ?q) ?k) ?h ?w1] =>
        rewrite (bindM_assoc (input q) k h w1);
        rewrite (bindM_Return _ _ _ _ _ (input_line q w1 l (p :: lines) eq_refl))
    end.
    match goal with
    | |- context [bindM (bindM (input ?q) ?k) ?h ?w1] =>
        rewrite (bindM_assoc (input q) k h w1);
        rewrite (bindM_Return _ _ _ _ _ (input_line q w1 p lines eq_refl))
    end.
    match goal with
    | |- context [bindM (bindM (crypto_encrypt p) ?k) ?h ?w1] =>
        rewrite (bindM_assoc (crypto_encrypt p) k h w1);
        rewrite (bindM_Return _ _ _ _ _ (crypto_encrypt_Return w1 p b Hb))
    end.
    unfold bindM, on_db.
    match goal with
    | |- context [DatabaseManager.add_password n l ?t (db ?w1)] =>
        change (db w1) with (db w);
        rewrite (add_password_duplicate (db w) n l t r Hr Hn Hen Hel)
    end.
    eexists. split; [reflexivity|]. clear.
    unfold name_prompt, login_prompt, secret_prompt. world_simpl w.
    repeat split. rewrite <- !app_assoc. reflexivity. }
  destruct E as (w' & E & H). exists w'. rewrite E. tauto.
Qed.

(** X10: asking for a name that is not stored prints the not-found line and
    returns to the menu; nothing is decrypted and the database is unchanged. *)
Theorem get_password_of_an_absent_name
        (w : world) (n : str) (lines : list str) :
  stdin w = n :: lines -> encodable n ->
  ~ In n (map name (passwords (db w))) ->
  exists w',
    PasswordGenerator.get_password w = Done (Return tt) w'
    /\ db w' = db w
    /\ output w' = output w ++ [name_prompt; not_found]
    /\ stdin w' = lines.
Proof.
  intros Hin Hen Hn. unfold PasswordGenerator.get_password.
  rewrite (bindM_Return _ _ _ _ _ (input_line _ w n lines Hin)).
  unfold bindM at 1, on_db.
  change (db (set_stdin lines (write _ w))) with (db w).
  unfold DatabaseManager.get_password.
  rewrite (bind_text_Return n Hen). cbn [bind]. rewrite (find_absent n _ Hn).
  unfold print. eexists. split; [reflexivity|]. clear.
  unfold name_prompt, not_found. world_simpl w.
  repeat split. now rewrite <- app_assoc.
Qed.

(** X11: deleting a name that is not stored is reported like any deletion:
    the line of deletion is printed although the database is unchanged. *)
Theorem delete_password_of_an_absent_name
        (w : world) (n : str) (lines : list str) :
  stdin w = n :: lines -> encodable n ->
  ~ In n (map name (passwords (db w))) ->
  exists w',
    PasswordGenerator.delete_password w = Done (Return tt) w'
    /\ db w' = db w
    /\ output w' = output w ++ [name_prompt; deleted]
    /\ stdin w' = lines.
Proof.
  intros Hin Hen Hn. unfold PasswordGenerator.delete_password.
  rewrite (bindM_Return _ _ _ _ _ (input_line _ w n lines Hin)).
  unfold bindM at 1, on_db.
  change (db (set_stdin lines (write _ w))) with (db w).
  unfold DatabaseManager.delete_password.
  rewrite (bind_text_Return n Hen), (filter_absent n _ Hn).
  unfold print. eexists. split; [reflexivity|].
  unfold name_prompt, deleted. clear.
  destruct w as [d c kf k i o r a t].
  cbv [set_db set_key set_stdin write advance
       db calls key_file key stdin output rand drawn clock].
  repeat split; cbn; [now destruct d|now rewrite <- app_assoc].
Qed.

Lemma print_rows_output rows w :
  print_rows rows w
  = Done (Return tt)
      (World (db w) (calls w) (key_file w) (key w) (stdin w)
             (output w ++ map credential_line rows) (rand w) (drawn w) (clock w)).
Proof.
  revert w. induction rows as [|[n l] rows IH]; intros w; cbn [print_rows map].
  - unfold ret. rewrite app_nil_r. now destruct w.
  - unfold bindM, print. rewrite IH. f_equal. unfold write.
    cbn [db calls key_file key stdin output rand drawn clock].
    now rewrite <- app_assoc.
Qed.

(** X12: the list operation prints one line "- name (login)" for each stored
    credential, in the order of the names, or the line for an empty store; it
    reads nothing and changes nothing. *)
Theorem list_passwords_prints_names_and_logins (w : world) :
  exists w',
    PasswordGenerator.list_passwords w = Done (Return tt) w'
    /\ db w' = db w /\ stdin w' = stdin w
    /\ output w'
       = output w ++
         match DatabaseManager.list_passwords (db w) with
         | [] => [nothing_yet]
         | rows => map credential_line rows
         end.
Proof.
  unfold PasswordGenerator.list_passwords, bindM, on_db.
  destruct (DatabaseManager.list_passwords (db w)) as [|row rows].
  - unfold print. eexists. split; [reflexivity|]. now destruct w.
  - rewrite print_rows_output. eexists. split; [reflexivity|]. now destruct w.
Qed.

End WithFernet.

Lemma add_then_get_shows_the_secret_witness :
  exists w',
    (PasswordGenerator.add_password ;;; PasswordGenerator.get_password)
      (unlocked [py "gitlab"; py "bob"; py "p@ss"; py "gitlab"; py "0"])
    = Done (Return tt) w'
    /\ output w'
       = output (unlocked [py "gitlab"; py "bob"; py "p@ss"; py "gitlab"; py "0"])
         ++ [name_prompt; login_prompt; secret_prompt; saved;
             name_prompt; login_prompt ++ py "bob"; secret_prompt ++ py "p@ss"]
    /\ stdin w' = [py "0"].
Proof.
  apply (add_then_get_shows_the_secret (F := reference)
           (unlocked [py "gitlab"; py "bob"; py "p@ss"; py "gitlab"; py "0"])
           (py "gitlab") (py "bob") (py "p@ss") [py "0"]).
  - reflexivity.
  - intros [].
  - repeat constructor.
  - repeat constructor.
  - repeat constructor.
  - repeat constructor; vm_compute; discriminate.
  - reflexivity.
  - reflexivity.
Defined.

Lemma adding_a_stored_name_ends_the_menu_witness :
  exists w',
    show_menu 1 (opened [py "1"; py "github"; py "bob"; py "pw"; py "0"])
    = Done (Raise IntegrityError) w'
    /\ db w' = db (opened [py "1"; py "github"; py "bob"; py "pw"; py "0"])
    /\ output w'
       = output (opened [py "1"; py "github"; py "bob"; py "pw"; py "0"])
         ++ [menu; py "> "; name_prompt; login_prompt; secret_prompt]
    /\ stdin w' = [py "0"]
    /\ exit_status
         (show_menu 1 (opened [py "1"; py "github"; py "bob"; py "pw"; py "0"]))
       = Some 1.
Proof.
  apply (adding_a_stored_name_ends_the_menu (F := reference) 0
           (opened [py "1"; py "github"; py "bob"; py "pw"; py "0"])
           (py "github") (py "bob") (py "pw") [py "0"] unreadable_row).
  - reflexivity.
  - now left.
  - reflexivity.
  - repeat constructor.
  - repeat constructor.
  - repeat constructor.
Defined.

Lemma get_password_of_an_absent_name_witness :
  exists w',
    PasswordGenerator.get_password (opened [py "gitlab"; py "0"])
    = Done (Return tt) w'
    /\ db w' = db (opened [py "gitlab"; py "0"])
    /\ output w' = output (opened [py "gitlab"; py "0"]) ++ [name_prompt; not_found]
    /\ stdin w' = [py "0"].
Proof.
  apply (get_password_of_an_absent_name (F := reference)
           (opened [py "gitlab"; py "0"]) (py "gitlab") [py "0"]).
  - reflexivity.
  - repeat constructor.
  - vm_compute. intros [H|[]]. discriminate.
Defined.

Lemma delete_password_of_an_absent_name_witness :
  exists w',
    PasswordGenerator.delete_password (opened [py "gitlab"; py "0"])
    = Done (Return tt) w'
    /\ db w' = db (opened [py "gitlab"; py "0"])
    /\ output w' = output (opened [py "gitlab"; py "0"]) ++ [name_prompt; deleted]
    /\ stdin w' = [py "0"].
Proof.
  apply (delete_password_of_an_absent_name
           (opened [py "gitlab"; py "0"]) (py "gitlab") [py "0"]).
  - reflexivity.
  - repeat constructor.
  - vm_compute. intros [H|[]]. discriminate.
Defined.

End MenuOperations.

(** ** The generator, whatever the length *)

Module GeneratorLengths.
Import PasswordGenerator Scenario ReferenceFernet SessionProperties.
Import GeneratorProperties MenuOperations.

(** A character that no decimal literal holds. *)
Definition not_in_a_literal (c : N) : Prop :=
  c < 128 /\ is_digit c = false /\ is_space c = false
  /\ c <> 95 /\ c <> 43 /\ c <> 45.

Lemma digits_None c s : forall acc b,
  In c s -> is_digit c = false -> c <> 95 -> digits acc b s = None.
Proof.
  induction s as [|x s IH]; intros acc b Hin Hd Hu; [destruct Hin|].
  cbn [digits]. destruct Hin as [->|Hin].
  - rewrite Hd. now rewrite (proj2 (N.eqb_neq c 95) Hu).
  - destruct (is_digit x); [now apply IH|].
    destruct ((x =? 95) && b); [now apply IH|reflexivity].
Qed.

Lemma In_lstrip c s : In c s -> is_space c = false -> In c (lstrip s).
Proof.
  intros Hin Hs. induction s as [|x s IH]; [destruct Hin|]. cbn [lstrip].
  destruct (is_space x) eqn:Ex; [|exact Hin].
  destruct Hin as [->|Hin]; [congruence|now apply IH].
Qed.

Lemma In_strip c s : In c s -> is_space c = false -> In c (strip s).
Proof.
  intros Hin Hs. unfold strip. apply in_rev. rewrite rev_involutive.
  apply In_lstrip; [|exact Hs]. apply -> in_rev. now apply In_lstrip.
Qed.

(** The sign of a literal, by tests instead of patterns. *)
Lemma int_by_tests s :
  int s
  = match match strip s with
          | [] => None
          | x :: r =>
              if x =? 45 then option_map Z.opp (digits 0 false r)
              else if x =? 43 then digits 0 false r
              else digits 0 false (x :: r)
          end with
    | Some z => Return z
    | None => Raise ValueError
    end.
Proof.
  unfold int. destruct (strip s) as [|x r]; [reflexivity|].
  destruct x as [|p]; [reflexivity|].
  do 7 (destruct p as [p|p|]; try reflexivity).
Qed.

Lemma int_ValueError c s :
  In c s -> not_in_a_literal c -> int s = Raise ValueError.
Proof.
  intros Hin (_ & Hd & Hs & Hu & Hp & Hm). rewrite int_by_tests.
  pose proof (In_strip c s Hin Hs) as Ht.
  destruct (strip s) as [|x r]; [reflexivity|].
  destruct (N.eqb_spec x 45) as [->|H45].
  - destruct Ht as [E|Ht]; [congruence|].
    now rewrite (digits_None c r 0%Z false Ht Hd Hu).
  - destruct (N.eqb_spec x 43) as [->|H43].
    + destruct Ht as [E|Ht]; [congruence|].
      now rewrite (digits_None c r 0%Z false Ht Hd Hu).
    + now rewrite (digits_None c (x :: r) 0%Z false Ht Hd Hu).
Qed.


(** X14: a line that holds a character of no decimal literal (a letter, a
    dot, ...) makes [int] raise ValueError; it is not caught: the generator
    prints nothing, the menu loop ends and the process ends with status 1. *)
Theorem generate_password_bad_length_ends_the_menu
        {F : FernetLib} (fuel : nat) (w : world) (line : str)
        (lines : list str) (c : N) :
  stdin w = py "5" :: line :: lines ->
  In c line -> not_in_a_literal c ->
  exists w',
    show_menu (S fuel) w = Done (Raise ValueError) w'
    /\ output w' = output w ++ [menu; py "> "; length_prompt]
    /\ db w' = db w /\ stdin w' = lines
    /\ exit_status (show_menu (S fuel) w) = Some 1.
Proof.
  intros Hin Hc Hbad.
  assert (E : exists w', show_menu (S fuel) w = Done (Raise ValueError) w'
                         /\ output w' = output w ++ [menu; py "> "; length_prompt]
                         /\ db w' = db w /\ stdin w' = lines).
  { cbn [show_menu]. unfold bindM at 1, print.
    rewrite (bindM_Return _ _ _ _ _
               (input_line _ (write _ w) (py "5") (line :: lines) Hin)).
    unfold dispatch.
    change (str_eqb (py "5") (py "1")) with false.
    change (str_eqb (py "5") (py "2")) with false.
    change (str_eqb (py "5") (py "3")) with false.
    change (str_eqb (py "5") (py "4")) with false.
    change (str_eqb (py "5") (py "5")) with true. cbv iota.
    unfold generate_password_interactive.
    match goal with
    | |- context [bindM (bindM (input ?q) ?k) ?h ?w1] =>
        rewrite (bindM_assoc (input q) k h w1);
        rewrite (bindM_Return _ _ _ _ _ (input_line q w1 line lines eq_refl))
    end.
    unfold bindM. rewrite (int_ValueError c line Hc Hbad).
    destruct line as [|x line]; [destruct Hc|].
    eexists. split; [reflexivity|]. clear. unfold length_prompt.
    world_simpl w. repeat split. now rewrite <- !app_assoc. }
  destruct E as (w' & E & H). exists w'. rewrite E. tauto.
Qed.


Lemma generate_password_bad_length_ends_the_menu_witness :
  exists w',
    show_menu 1 (idle [py "5"; py "abc"; py "0"]) = Done (Raise ValueError) w'
    /\ output w'
       = output (idle [py "5"; py "abc"; py "0"])
         ++ [menu; py "> "; length_prompt]
    /\ db w' = db (idle [py "5"; py "abc"; py "0"]) /\ stdin w' = [py "0"]
    /\ exit_status (show_menu 1 (idle [py "5"; py "abc"; py "0"])) = Some 1.
Proof.
  apply (generate_password_bad_length_ends_the_menu (F := reference) 0
           (idle [py "5"; py "abc"; py "0"]) (py "abc") [py "0"] 97).
  - reflexivity.
  - now left.
  - unfold not_in_a_literal.
    split; [lia|]. split; [reflexivity|]. split; [reflexivity|].
    split; [lia|]. split; lia.
Defined.

End GeneratorLengths.

(** ** Authentication and the first run *)

Module Authentication.
Import DatabaseManager DatabaseFacts PasswordGenerator Scenario ReferenceFernet.
Import SessionProperties StoreComposition MenuOperations.

(** The master record of [p] under the salt [token]. *)
Definition master_of (p token : str) : option MasterRow :=
  match _hash_password p token with
  | Return h => Some {| password_hash := h; salt := token |}
  | Raise _ => None
  end.

Definition with_master_of (p token : str) (d : Database) : Database :=
  {| master := master_of p token; passwords := passwords d;
     sqlite_sequence := sqlite_sequence d |}.

Definition first_run_banner : str :=
  py "🔐 Первый запуск. Создайте мастер-пароль.".

(** The world that set-up leaves on a first run once the entries [p], [p]
    were read and accepted. *)
Definition set_up (w : world) (p : str) (lines : list str) : world :=
  write (py "✅ Мастер-пароль сохранён.")
    (set_db CallSetMaster
       (with_master_of p (Sha256.bytes_hex (random_bytes 16 w)) (db w))
       (advance 16
          (asked (write first_run_banner (set_db CallGetMaster (db w) w))
             p lines))).

(** The master record of "Sunflower42!" under the salt of sixteen zero
    bytes. *)
Definition sunflower_record : MasterRow :=
  {| password_hash :=
       py "dd4742bbd9ac0bdf450e891efd5d8ef7dd31e61e1433ef193eccd78c47c2efec";
     salt := py "00000000000000000000000000000000" |}.

Lemma authenticate_from_reads n : forall w r w',
  authenticate_from n w = Done r w' ->
  db w' = db w /\ key w' = key w
  /\ exists read,
       stdin w = read ++ stdin w' /\ (length read <= n)%nat
       /\ calls w' = calls w ++ repeat CallVerify (length read).
Proof.
  induction n as [|n IH]; intros w r w'; cbn [authenticate_from].
  - unfold raise. intros [= _ <-]. split; [reflexivity|]. split; [reflexivity|].
    exists []. split; [reflexivity|]. split; [cbn; lia|].
    cbn [length repeat]. now rewrite app_nil_r.
  - unfold getpass. destruct (stdin w) as [|pwd lines] eqn:Hin.
    + rewrite (bindM_Raise _ _ _ _ _ (input_eof _ w Hin)).
      intros [= _ <-]. split; [reflexivity|]. split; [reflexivity|].
      exists [].
      change (stdin (write _ w)) with (stdin w).
      change (calls (write _ w)) with (calls w).
      split; [now rewrite Hin|]. split; [cbn; lia|].
      cbn [length repeat]. now rewrite app_nil_r.
    + rewrite (bindM_Return _ _ _ _ _ (input_line _ w pwd lines Hin)).
      unfold bindM at 1, on_db.
      change (db (set_stdin lines (write _ w))) with (db w).
      destruct (verify_master_password pwd (db w)) as [[|]|e].
      * unfold ret. intros [= _ <-]. split; [reflexivity|].
        split; [reflexivity|]. exists [pwd]. split; [reflexivity|].
        split; [cbn; lia|reflexivity].
      * unfold bindM at 1, print. intros Hrun. apply IH in Hrun.
        destruct Hrun as (Hdb & Hkey & read & Hs & Hlen & Hcalls).
        split; [exact Hdb|]. split; [exact Hkey|]. exists (pwd :: read).
        change (stdin (write _ (set_db _ _ (set_stdin lines _)))) with lines in Hs.
        change (calls (write _ (set_db _ _ (set_stdin lines (write _ w)))))
          with (calls w ++ [CallVerify]) in Hcalls.
        cbn [length repeat app]. rewrite <- Hs.
        split; [reflexivity|]. split; [lia|].
        rewrite Hcalls, <- app_assoc. reflexivity.
      * intros [= _ <-]. split; [reflexivity|].
        split; [reflexivity|]. exists [pwd]. split; [reflexivity|].
        split; [cbn; lia|reflexivity].
Qed.

(** X15: authentication only reads.  Whatever is typed, [authenticate] ends
    after at most three lines, with one call of [verify_master_password] for
    each line read, and leaves the database and the key as they were. *)
Theorem authenticate_reads_at_most_three_lines (w : world) :
  exists r w' read,
    authenticate w = Done r w'
    /\ db w' = db w /\ key w' = key w
    /\ stdin w = read ++ stdin w' /\ (length read <= 3)%nat
    /\ calls w' = calls w ++ repeat CallVerify (length read).
Proof.
  destruct (steady_authenticate 3 w) as (r & w' & E & _).
  destruct (authenticate_from_reads 3 w r w' E)
    as (Hdb & Hkey & read & Hs & Hlen & Hcalls).
  exists r, w', read. unfold authenticate. now repeat split.
Qed.

Lemma authenticate_from_first_match n : forall w bad p lines,
  stdin w = bad ++ p :: lines -> (length bad < n)%nat ->
  Forall (fun q => verify_master_password q (db w) = Return false) bad ->
  verify_master_password p (db w) = Return true ->
  exists w',
    authenticate_from n w = Done (Return tt) w'
    /\ stdin w' = lines /\ db w' = db w
    /\ calls w' = calls w ++ repeat CallVerify (S (length bad)).
Proof.
  induction n as [|n IH]; intros w bad p lines Hin Hlen Hbad Hp; [lia|].
  destruct bad as [|q bad].
  - rewrite (authenticate_accepted n w p lines Hin Hp).
    eexists. repeat split.
  - inversion Hbad as [|? ? Hq Hbad']; subst.
    rewrite (authenticate_refused n w q (bad ++ p :: lines) Hin Hq).
    destruct (IH (write wrong_password
                    (set_db CallVerify (db w)
                       (set_stdin (bad ++ p :: lines) (write password_prompt w))))
                bad p lines eq_refl ltac:(cbn in Hlen; lia) Hbad' Hp)
      as (w' & E & Hs & Hdb & Hcalls).
    exists w'. split; [exact E|]. split; [exact Hs|]. split; [exact Hdb|].
    rewrite Hcalls. cbn [calls set_db write set_stdin length repeat].
    now rewrite <- app_assoc.
Qed.

(** X16: the first candidate that verifies, if it is among the first three,
    is accepted: [authenticate] returns after reading exactly the refused
    candidates and that one, and leaves the rest of the input unread. *)
Theorem authenticate_accepts_the_first_match
        (w : world) (bad : list str) (p : str) (lines : list str) :
  stdin w = bad ++ p :: lines -> (length bad < 3)%nat ->
  Forall (fun q => verify_master_password q (db w) = Return false) bad ->
  verify_master_password p (db w) = Return true ->
  exists w',
    authenticate w = Done (Return tt) w'
    /\ stdin w' = lines /\ db w' = db w
    /\ calls w' = calls w ++ repeat CallVerify (S (length bad)).
Proof. apply authenticate_from_first_match. Qed.

(** *** The record that set-up writes *)

Lemma bytes_hex_alphabet b :
  Forall (fun c => In c Sha256.hex_alphabet) (Sha256.bytes_hex b)
  /\ length (Sha256.bytes_hex b) = (2 * length b)%nat.
Proof.
  induction b as [|x b [IH1 IH2]]; cbn [Sha256.bytes_hex flat_map app length].
  - split; [constructor|reflexivity].
  - fold (Sha256.bytes_hex b). pose proof (Byte.to_N_bounded x) as Hx.
    split; [|lia].
    constructor; [|constructor; [|exact IH1]];
      apply Sha256Facts.hexdigit_alphabet.
    + apply N.Div0.div_lt_upper_bound. lia.
    + apply N.mod_lt. lia.
Qed.

Lemma token_encodable b : encodable (Sha256.bytes_hex b).
Proof.
  unfold encodable. eapply Forall_impl; [|apply bytes_hex_alphabet].
  apply hex_alphabet_encodable.
Qed.

Lemma set_master_password_stored d p token :
  encodable p -> encodable token ->
  set_master_password p token d = (Return tt, with_master_of p token d)
  /\ verify_master_password p (with_master_of p token d) = Return true.
Proof.
  intros Hp Ht.
  destruct (hash_password_Return p token (Utf8Facts.encodable_app _ _ Hp Ht))
    as (b & _ & Hh).
  unfold set_master_password, with_master_of, master_of,
    verify_master_password, get_master_password.
  rewrite Hh. rewrite (bind_text_Return _ (sha256_hex_encodable b)). cbn [bind].
  rewrite (bind_text_Return token Ht). split; [reflexivity|].
  cbn [master salt password_hash]. rewrite Hh. cbn [bind].
  now rewrite str_eqb_refl.
Qed.

Lemma accept_stores p w :
  encodable p ->
  accept p w
  = Done (Return tt)
      (write (py "✅ Мастер-пароль сохранён.")
         (set_db CallSetMaster
            (with_master_of p (Sha256.bytes_hex (random_bytes 16 w)) (db w))
            (advance 16 w))).
Proof.
  intros Hp.
  destruct (set_master_password_stored (db w) p
              (Sha256.bytes_hex (random_bytes 16 w)) Hp (token_encodable _))
    as [Hset _].
  unfold accept, token_hex, urandom, bindM, ret, on_db, print.
  change (db (advance 16 w)) with (db w). now rewrite Hset.
Qed.

Lemma setup_master_password_first_run fuel w p lines :
  get_master_password (db w) = None ->
  stdin w = p :: p :: lines -> p <> [] -> encodable p ->
  setup_master_password (S fuel) w = Done (Return tt) (set_up w p lines).
Proof.
  intros Hnone Hin Hne Hp.
  unfold setup_master_password.
  unfold bindM at 1, on_db. rewrite Hnone.
  unfold bindM at 1, print. cbn [setup_loop].
  match goal with
  | |- context [setup_round ?again ?w1] =>
      rewrite (setup_round_two again w1 p p lines Hin)
  end.
  rewrite str_eqb_refl, (proj2 (str_eqb_neq p []) Hne). cbn [negb andb].
  now rewrite (accept_stores p _ Hp).
Qed.

(** X17: on a first run, the password typed twice at set-up and once more
    at the prompt of authentication opens the session: set-up stores its
    record and authentication accepts it at the first attempt. *)
Theorem first_run_then_login
        (fuel : nat) (w : world) (p : str) (lines : list str) :
  get_master_password (db w) = None ->
  stdin w = p :: p :: p :: lines -> p <> [] -> encodable p ->
  exists w',
    (setup_master_password (S fuel) ;;; authenticate) w = Done (Return tt) w'
    /\ stdin w' = lines
    /\ get_master_password (db w')
       = master_of p (Sha256.bytes_hex (random_bytes 16 w))
    /\ verify_master_password p (db w') = Return true
    /\ passwords (db w') = passwords (db w).
Proof.
  intros Hnone Hin Hne Hp.
  destruct (set_master_password_stored (db w) p
              (Sha256.bytes_hex (random_bytes 16 w)) Hp (token_encodable _))
    as [_ Hver].
  rewrite (bindM_Return _ _ _ _ _
             (setup_master_password_first_run fuel w p (p :: lines)
                Hnone Hin Hne Hp)).
  unfold authenticate.
  rewrite (authenticate_accepted 2 (set_up w p (p :: lines)) p lines eq_refl Hver).
  eexists. split; [reflexivity|]. repeat split. exact Hver.
Qed.

Lemma setup_loop_record fuel : forall w r w',
  get_master_password (db w) = None ->
  setup_loop fuel w = Done r w' ->
  forall record, get_master_password (db w') = Some record ->
  exists p b,
    p <> [] /\ master_of p (Sha256.bytes_hex b) = Some record
    /\ length b = 16%nat.
Proof.
  induction fuel as [|fuel IH]; intros w r w' Hnone Hrun; [discriminate|].
  cbn [setup_loop] in Hrun.
  destruct (stdin w) as [|p1 [|p2 lines]] eqn:Hin.
  1, 2: destruct (setup_round_eof (setup_loop fuel) w) as (w1 & E & Hdb & _);
    [rewrite Hin; cbn; lia|];
    rewrite E in Hrun; injection Hrun as _ <-; rewrite Hdb, Hnone; discriminate.
  rewrite (setup_round_two _ w p1 p2 lines Hin) in Hrun.
  destruct (negb (str_eqb p1 []) && str_eqb p1 p2) eqn:Htest.
  - apply andb_prop in Htest as [Hne _].
    apply negb_true_iff, str_eqb_neq in Hne.
    unfold accept, token_hex, urandom, bindM, ret, on_db, print,
      set_master_password in Hrun.
    change (db (advance 16 (asked w p2 lines))) with (db w) in Hrun.
    set (b := random_bytes 16 (asked w p2 lines)) in Hrun.
    intros record.
    destruct (_hash_password p1 (Sha256.bytes_hex b)) as [hashed|e] eqn:Hh.
    + destruct (bind (bind_text hashed) (fun _ => bind_text (Sha256.bytes_hex b)))
        as [[]|e].
      * injection Hrun as _ <-. cbn. intros [= <-]. exists p1, b.
        split; [exact Hne|]. split; [|apply random_bytes_length].
        unfold master_of. now rewrite Hh.
      * injection Hrun as _ <-. cbn. fold (get_master_password (db w)).
        rewrite Hnone. discriminate.
    + injection Hrun as _ <-. cbn. fold (get_master_password (db w)).
      rewrite Hnone. discriminate.
  - unfold bindM at 1, print in Hrun. exact (IH (write mismatch (asked w p2 lines)) r w' Hnone Hrun).
Qed.

(** X18: the master record that set-up writes is made of a salt of 32
    hexadecimal digits and a hash of 64 hexadecimal digits, the SHA-256 digest
    of a non-empty password followed by the salt. *)
Theorem setup_writes_salt_and_digest
        (fuel : nat) (w w' : world) (r : result unit) (record : MasterRow) :
  get_master_password (db w) = None ->
  setup_master_password fuel w = Done r w' ->
  get_master_password (db w') = Some record ->
  length (salt record) = 32%nat
  /\ Forall (fun c => In c Sha256.hex_alphabet) (salt record)
  /\ length (password_hash record) = 64%nat
  /\ Forall (fun c => In c Sha256.hex_alphabet) (password_hash record)
  /\ exists p, p <> []
               /\ _hash_password p (salt record) = Return (password_hash record).
Proof.
  intros Hnone Hrun Hrec. unfold setup_master_password in Hrun.
  unfold bindM at 1, on_db in Hrun. rewrite Hnone in Hrun.
  unfold bindM at 1, print in Hrun.
  pose proof (fun H => setup_loop_record fuel _ r w' H Hrun record Hrec) as K.
  destruct (K Hnone) as (p & b & Hne & Hm & Hb).
  unfold master_of in Hm.
  destruct (_hash_password p (Sha256.bytes_hex b)) as [h|] eqn:Hh;
    [|discriminate].
  injection Hm as <-. cbn [salt password_hash].
  destruct (bytes_hex_alphabet b) as [Ha Hl].
  unfold _hash_password in Hh.
  destruct (Utf8.encode (p ++ Sha256.bytes_hex b)) as [bs|] eqn:Hb';
    [|discriminate].
  cbn [bind] in Hh. injection Hh as <-.
  split; [rewrite Hl, Hb; reflexivity|]. split; [exact Ha|].
  split; [apply Sha256Facts.hexdigest_length|].
  split; [apply Sha256Facts.hexdigest_alphabet|].
  exists p. split; [exact Hne|]. unfold _hash_password. now rewrite Hb'.
Qed.

Lemma authenticate_accepts_the_first_match_witness :
  exists w',
    authenticate (at_the_gate [py "a"; sunflower; py "0"]) = Done (Return tt) w'
    /\ stdin w' = [py "0"]
    /\ db w' = db (at_the_gate [py "a"; sunflower; py "0"])
    /\ calls w'
       = calls (at_the_gate [py "a"; sunflower; py "0"])
         ++ repeat CallVerify (S (length [py "a"])).
Proof.
  apply (authenticate_accepts_the_first_match
           (at_the_gate [py "a"; sunflower; py "0"]) [py "a"] sunflower
           [py "0"]).
  - reflexivity.
  - cbn. lia.
  - constructor; [vm_compute; reflexivity|constructor].
  - vm_compute. reflexivity.
Defined.

Lemma first_run_then_login_witness :
  exists w',
    (setup_master_password 1 ;;; authenticate)
      (idle [sunflower; sunflower; sunflower; py "0"])
    = Done (Return tt) w'
    /\ stdin w' = [py "0"]
    /\ get_master_password (db w')
       = master_of sunflower
           (Sha256.bytes_hex
              (random_bytes 16 (idle [sunflower; sunflower; sunflower; py "0"])))
    /\ verify_master_password sunflower (db w') = Return true
    /\ passwords (db w')
       = passwords (db (idle [sunflower; sunflower; sunflower; py "0"])).
Proof.
  apply (first_run_then_login 0
           (idle [sunflower; sunflower; sunflower; py "0"]) sunflower [py "0"]).
  - reflexivity.
  - reflexivity.
  - discriminate.
  - repeat constructor.
Defined.

Lemma setup_writes_salt_and_digest_witness :
  length (salt sunflower_record) = 32%nat
  /\ Forall (fun c => In c Sha256.hex_alphabet) (salt sunflower_record)
  /\ length (password_hash sunflower_record) = 64%nat
  /\ Forall (fun c => In c Sha256.hex_alphabet) (password_hash sunflower_record)
  /\ exists p, p <> []
               /\ _hash_password p (salt sunflower_record)
                  = Return (password_hash sunflower_record).
Proof.
  apply (setup_writes_salt_and_digest 1 (idle [sunflower; sunflower])
           (set_up (idle [sunflower; sunflower]) sunflower []) (Return tt)
           sunflower_record).
  - reflexivity.
  - vm_compute. reflexivity.
  - vm_compute. reflexivity.
Defined.

End Authentication.

(** ** The menu loop and the whole run *)

Module RunInvariants.
Import DatabaseManager DatabaseFacts PasswordGenerator Scenario ReferenceFernet.
Import SessionProperties StoreComposition MenuOperations Authentication.

(** [reads w w']: what is left to type in [w'] is what was left in [w], less
    the lines read in between. *)
Definition reads (w w' : world) : Prop :=
  exists read, stdin w = read ++ stdin w'.

(** What every step inside the menu loop respects. *)
Record menu_step (w w' : world) : Prop := Menu_step {
  same_master : master (db w') = master (db w);
  same_key : key w' = key w;
  same_key_file : key_file w' = key_file w;
  input_read : reads w w';
  output_grows : exists printed, output w' = output w ++ printed;
  names_unique : unique_names (db w) -> unique_names (db w')
}.

(** The world a first run starts from: no database, no key file; the
    password is typed three times, then "0". *)
Definition from_nothing (p : str) (lines : list str) (rand : nat -> N)
           (now : N) : world :=
  start None None (p :: p :: p :: py "0" :: lines) rand now.

(** A later session on [vault]: a wrong password, the right one, then the
    credential "github" is deleted, "gitlab" is added, the store is listed and
    the program is left. *)
Definition busy : world :=
  session [py "a"; sunflower; py "4"; py "github"; py "1"; py "gitlab";
           py "bob"; py "pw"; py "3"; py "0"; py "never read"].

Definition world_of (o : outcome unit) (otherwise : world) : world :=
  match o with
  | Done _ w => w
  | OutOfFuel => otherwise
  end.

(** [busy] once the constructor has returned, and once the program ended. *)
Definition busy_at_the_menu : world :=
  world_of (PasswordGenerator.init 12 busy) busy.

Definition busy_at_the_end : world := world_of (main 12 busy) busy.

Definition respects {A} (m : M A) : Prop :=
  forall w r w', m w = Done r w' -> menu_step w w'.

(** [below m m']: wherever [m] ends, [m'] ends in the same way. *)
Definition below {A} (m m' : M A) : Prop :=
  forall w r w', m w = Done r w' -> m' w = Done r w'.

Lemma reads_refl w : reads w w.
Proof. now exists []. Qed.

Lemma reads_trans a b c : reads a b -> reads b c -> reads a c.
Proof.
  intros [r1 H1] [r2 H2]. exists (r1 ++ r2).
  now rewrite H1, H2, app_assoc.
Qed.

Lemma menu_step_refl w : menu_step w w.
Proof.
  constructor; try reflexivity; [apply reads_refl| |auto].
  exists []. now rewrite app_nil_r.
Qed.

Lemma menu_step_trans a b c : menu_step a b -> menu_step b c -> menu_step a c.
Proof.
  intros [Hm1 Hk1 Hf1 Hr1 [o1 Ho1] Hu1] [Hm2 Hk2 Hf2 Hr2 [o2 Ho2] Hu2].
  constructor; [congruence|congruence|congruence| | |auto].
  - eapply reads_trans; eassumption.
  - exists (o1 ++ o2). now rewrite Ho2, Ho1, app_assoc.
Qed.

Lemma step_write s w : menu_step w (write s w).
Proof.
  constructor; try reflexivity; [now exists []|now exists [s]|auto].
Qed.

Lemma step_advance n w : menu_step w (advance n w).
Proof.
  constructor; try reflexivity; [now exists []| |auto].
  exists []. cbn. now rewrite app_nil_r.
Qed.

Lemma step_read l r w : stdin w = l :: r -> menu_step w (set_stdin r w).
Proof.
  intros H. constructor; try reflexivity; [now exists [l]| |auto].
  exists []. cbn. now rewrite app_nil_r.
Qed.

Lemma step_db c d w :
  master d = master (db w) -> (unique_names (db w) -> unique_names d) ->
  menu_step w (set_db c d w).
Proof.
  intros Hm Hu. constructor; try reflexivity; [exact Hm|now exists []| |exact Hu].
  exists []. cbn. now rewrite app_nil_r.
Qed.

Lemma respects_ret {A} (a : A) : respects (ret a).
Proof. intros w r w' [= _ <-]. apply menu_step_refl. Qed.

Lemma respects_bind {A B} (m : M A) (k : A -> M B) :
  respects m -> (forall a, respects (k a)) -> respects (bindM m k).
Proof.
  intros Hm Hk w r w' H. unfold bindM in H.
  destruct (m w) as [[a|e] w1|] eqn:E; [| |discriminate].
  - eapply menu_step_trans; [eapply Hm, E|eapply Hk, H].
  - injection H as _ <-. eapply Hm, E.
Qed.

Lemma respects_state {A} (f : world -> result A) (g : world -> world) :
  (forall w, menu_step w (g w)) -> respects (fun w => Done (f w) (g w)).
Proof. intros Hg w r w' [= _ <-]. apply Hg. Qed.

Lemma respects_print s : respects (print s).
Proof. apply respects_state. apply step_write. Qed.

Lemma respects_input p : respects (input p).
Proof.
  intros w r w'. unfold input. destruct (stdin w) as [|l rest] eqn:E.
  - intros [= _ <-]. apply step_write.
  - intros [= _ <-]. apply (menu_step_trans _ (write p w)); [apply step_write|].
    now apply (step_read l).
Qed.

Lemma respects_on_db {A} c (f : Database -> result A * Database) :
  (forall d, master (snd (f d)) = master d
             /\ (unique_names d -> unique_names (snd (f d)))) ->
  respects (on_db c f).
Proof.
  intros Hf w r w'. unfold on_db. destruct (Hf (db w)) as [Hm Hu].
  destruct (f (db w)) as [r1 d]. intros [= _ <-]. now apply step_db.
Qed.

Lemma respects_draw n : respects (draw n).
Proof.
  induction n as [|n IH]; cbn [draw]; [apply respects_ret|].
  apply respects_bind.
  - apply respects_state. intros w. apply step_advance.
  - intros c. apply respects_bind; [exact IH|]. intros s. apply respects_ret.
Qed.

Lemma respects_print_rows rows : respects (print_rows rows).
Proof.
  induction rows as [|[n l] rows IH]; cbn [print_rows]; [apply respects_ret|].
  apply respects_bind; [apply respects_print|]. intros _. exact IH.
Qed.

Section WithFernet.
Context {F : FernetLib}.

Lemma respects_crypto_encrypt data : respects (crypto_encrypt data).
Proof.
  intros w r w'. unfold crypto_encrypt.
  destruct (EncryptionManager.encrypt _ _ _ _); intros [= _ <-];
    [apply step_advance|apply menu_step_refl].
Qed.

Lemma respects_add_password : respects PasswordGenerator.add_password.
Proof.
  unfold PasswordGenerator.add_password.
  apply respects_bind; [apply respects_input|]. intros n.
  apply respects_bind; [apply respects_input|]. intros l.
  apply respects_bind; [apply respects_input|]. intros p.
  apply respects_bind; [apply respects_crypto_encrypt|]. intros e.
  apply respects_bind; [|intros _; apply respects_print].
  apply respects_on_db. intros d. split; [apply add_password_master|].
  apply add_password_unique.
Qed.

Lemma respects_get_password : respects PasswordGenerator.get_password.
Proof.
  unfold PasswordGenerator.get_password.
  apply respects_bind; [apply respects_input|]. intros n.
  apply respects_bind; [apply respects_on_db; now split|].
  intros [r|]; [|apply respects_print].
  apply respects_bind.
  - apply respects_state. intros w. apply menu_step_refl.
  - intros password.
    apply respects_bind; [apply respects_print|]. intros _. apply respects_print.
Qed.

Lemma respects_delete_password : respects PasswordGenerator.delete_password.
Proof.
  unfold PasswordGenerator.delete_password.
  apply respects_bind; [apply respects_input|]. intros n.
  apply respects_bind; [|intros _; apply respects_print].
  apply respects_on_db. intros d. split; [apply delete_password_master|].
  apply StoreProperties.delete_password_unique.
Qed.

Lemma respects_dispatch choice again :
  respects again -> respects (dispatch choice again).
Proof.
  intros Ha. unfold dispatch.
  repeat match goal with
         | |- context [if ?b then _ else _] => destruct b
         end;
    first [ apply respects_ret
          | apply respects_bind; [|intros _; exact Ha] ].
  - apply respects_add_password.
  - apply respects_get_password.
  - unfold PasswordGenerator.list_passwords.
    apply respects_bind; [apply respects_on_db; now split|].
    intros [|row rows]; [apply respects_print|apply respects_print_rows].
  - apply respects_delete_password.
  - unfold generate_password_interactive.
    apply respects_bind; [apply respects_input|]. intros line.
    apply respects_bind.
    + apply respects_state. intros w. apply menu_step_refl.
    + intros n. apply respects_bind; [apply respects_draw|]. intros s.
      apply respects_print.
  - apply respects_print.
Qed.

Lemma respects_show_menu fuel : respects (show_menu fuel).
Proof.
  induction fuel as [|fuel IH]; cbn [show_menu]; [discriminate|].
  apply respects_bind; [apply respects_print|]. intros _.
  apply respects_bind; [apply respects_input|]. intros choice.
  now apply respects_dispatch.
Qed.

Lemma verify_same_master d d' p :
  master d' = master d ->
  verify_master_password p d' = verify_master_password p d.
Proof.
  intros H. unfold verify_master_password, get_master_password. now rewrite H.
Qed.

(** X19: whatever is typed at the menu, and however the loop ends, the master
    record, the key and the key file are what they were when the loop began,
    so the same master password verifies afterwards; the names in the store
    stay pairwise different; lines are only read and output is only added. *)
Theorem show_menu_keeps_master_record_and_key
        (fuel : nat) (w w' : world) (r : result unit) :
  show_menu fuel w = Done r w' ->
  get_master_password (db w') = get_master_password (db w)
  /\ (forall p, verify_master_password p (db w')
                = verify_master_password p (db w))
  /\ key w' = key w /\ key_file w' = key_file w
  /\ (unique_names (db w) -> unique_names (db w'))
  /\ (exists read, stdin w = read ++ stdin w')
  /\ (exists printed, output w' = output w ++ printed).
Proof.
  intros Hrun. destruct (respects_show_menu fuel w r w' Hrun)
    as [Hm Hk Hf Hr Ho Hu].
  split; [exact Hm|]. split; [intros p; now apply verify_same_master|].
  split; [exact Hk|]. split; [exact Hf|]. split; [exact Hu|].
  split; [exact Hr|exact Ho].
Qed.

(** The loop returns only through the choice "0". *)
Lemma show_menu_zero fuel : forall w w',
  show_menu fuel w = Done (Return tt) w' ->
  exists read, stdin w = read ++ py "0" :: stdin w'.
Proof.
  induction fuel as [|fuel IH]; intros w w'; cbn [show_menu]; [discriminate|].
  unfold bindM at 1, print. unfold bindM at 1, input.
  change (stdin (write menu w)) with (stdin w).
  destruct (stdin w) as [|choice lines] eqn:Hin; [discriminate|].
  set (w1 := set_stdin lines (write (py "> ") (write menu w))).
  assert (Hop : forall op : M unit, respects op ->
            (op ;;; show_menu fuel) w1 = Done (Return tt) w' ->
            exists read, choice :: lines = read ++ py "0" :: stdin w').
  { intros op Hop Hrun. unfold bindM in Hrun.
    destruct (op w1) as [[[]|e] w2|] eqn:E; [|discriminate|discriminate].
    destruct (input_read _ _ (Hop w1 _ w2 E)) as [read1 H1].
    destruct (IH w2 w' Hrun) as [read2 H2].
    exists (choice :: read1 ++ read2).
    change (stdin w1) with lines in H1.
    rewrite H1, H2. cbn [app]. now rewrite app_assoc. }
  unfold dispatch.
  destruct (str_eqb choice (py "1")); [apply Hop, respects_add_password|].
  destruct (str_eqb choice (py "2")); [apply Hop, respects_get_password|].
  destruct (str_eqb choice (py "3")).
  { apply Hop. unfold PasswordGenerator.list_passwords.
    apply respects_bind; [apply respects_on_db; now split|].
    intros [|row rows]; [apply respects_print|apply respects_print_rows]. }
  destruct (str_eqb choice (py "4")); [apply Hop, respects_delete_password|].
  destruct (str_eqb choice (py "5")).
  { apply Hop. unfold generate_password_interactive.
    apply respects_bind; [apply respects_input|]. intros line.
    apply respects_bind.
    - apply respects_state. intros w0. apply menu_step_refl.
    - intros n. apply respects_bind; [apply respects_draw|]. intros s.
      apply respects_print. }
  destruct (str_eqb choice (py "0")) eqn:E0; [|apply Hop, respects_print].
  apply str_eqb_eq in E0. subst choice.
  unfold ret. intros [= <-]. now exists [].
Qed.

(** X20: the menu loop returns only through the choice "0": when it
    returns, the last line it read is "0"; every other way out is an
    exception. *)
Theorem show_menu_returns_only_after_zero (fuel : nat) (w w' : world) :
  show_menu fuel w = Done (Return tt) w' ->
  (exists read, stdin w = read ++ py "0" :: stdin w')
  /\ In (py "0") (stdin w)
  /\ exit_status (show_menu fuel w) = Some 0.
Proof.
  intros Hrun. destruct (show_menu_zero fuel w w' Hrun) as [read H].
  split; [now exists read|]. split; [|now rewrite Hrun].
  rewrite H. apply in_or_app. right. now left.
Qed.

(** *** Before the menu *)

Lemma new_crypto_valid w r w' :
  new_crypto w = Done r w' ->
  stdin w' = stdin w /\ db w' = db w
  /\ (r = Return tt -> valid_key (key w') = true).
Proof.
  unfold new_crypto, EncryptionManager.init.
  destruct (valid_key _) eqn:Hv; intros [= <- <-];
    (split; [now destruct (key_file w)|]); (split; [now destruct (key_file w)|]).
  - intros _. exact Hv.
  - discriminate.
Qed.

Lemma accept_keeps p w r w' :
  accept p w = Done r w' -> stdin w' = stdin w /\ key w' = key w.
Proof.
  unfold accept, token_hex, urandom, bindM, ret, on_db, print.
  destruct (set_master_password p _ _) as [[[]|e] d]; intros [= _ <-]; now split.
Qed.

Lemma setup_loop_reads fuel : forall w r w',
  setup_loop fuel w = Done r w' -> reads w w' /\ key w' = key w.
Proof.
  induction fuel as [|fuel IH]; intros w r w' Hrun; [discriminate|].
  cbn [setup_loop] in Hrun.
  destruct (stdin w) as [|p1 [|p2 lines]] eqn:Hin.
  - unfold setup_round, getpass in Hrun.
    rewrite (bindM_Raise _ _ _ _ _ (input_eof _ w Hin)) in Hrun.
    injection Hrun as _ <-. split; [|reflexivity]. now exists [].
  - unfold setup_round, getpass in Hrun.
    rewrite (bindM_Return _ _ _ _ _ (input_line _ w p1 [] Hin)) in Hrun.
    rewrite (bindM_Raise _ _ _ _ _
               (input_eof _ (set_stdin [] (write _ w)) eq_refl)) in Hrun.
    injection Hrun as _ <-. split; [|reflexivity]. exists [p1].
    now rewrite Hin.
  - rewrite (setup_round_two _ w p1 p2 lines Hin) in Hrun.
    destruct (negb (str_eqb p1 []) && str_eqb p1 p2).
    + apply accept_keeps in Hrun as [Hs Hk]. split; [|exact Hk].
      exists [p1; p2]. now rewrite Hin, Hs.
    + unfold bindM at 1, print in Hrun. apply IH in Hrun as [[read Hs] Hk].
      split; [|exact Hk]. exists (p1 :: p2 :: read).
      change (stdin (write mismatch (asked w p2 lines))) with lines in Hs.
      now rewrite Hin, Hs.
Qed.

Lemma setup_master_password_reads fuel w r w' :
  setup_master_password fuel w = Done r w' -> reads w w' /\ key w' = key w.
Proof.
  unfold setup_master_password. unfold bindM at 1, on_db.
  destruct (get_master_password (db w)).
  - unfold ret. intros [= _ <-]. split; [now exists []|reflexivity].
  - unfold bindM at 1, print. intros Hrun.
    now apply setup_loop_reads in Hrun.
Qed.

Lemma authenticate_from_verified n : forall w w',
  authenticate_from n w = Done (Return tt) w' ->
  db w' = db w /\ key w' = key w
  /\ exists p, In p (stdin w) /\ verify_master_password p (db w) = Return true.
Proof.
  induction n as [|n IH]; intros w w'; cbn [authenticate_from];
    [discriminate|].
  unfold getpass. destruct (stdin w) as [|pwd lines] eqn:Hin.
  - now rewrite (bindM_Raise _ _ _ _ _ (input_eof _ w Hin)).
  - rewrite (bindM_Return _ _ _ _ _ (input_line _ w pwd lines Hin)).
    unfold bindM at 1, on_db.
    change (db (set_stdin lines (write _ w))) with (db w).
    destruct (verify_master_password pwd (db w)) as [[|]|e] eqn:Hv;
      [| |discriminate].
    + unfold ret. intros [= <-]. split; [reflexivity|]. split; [reflexivity|].
      exists pwd. split; [now left|exact Hv].
    + unfold bindM at 1, print. intros Hrun.
      apply IH in Hrun as (Hdb & Hkey & p & Hp & Hver).
      split; [exact Hdb|]. split; [exact Hkey|]. exists p.
      split; [now right|exact Hver].
Qed.

Lemma init_verified fuel w w' :
  PasswordGenerator.init fuel w = Done (Return tt) w' ->
  reads w w' /\ valid_key (key w') = true
  /\ exists p, In p (stdin w) /\ verify_master_password p (db w') = Return true.
Proof.
  unfold PasswordGenerator.init. intros Hrun. unfold bindM at 1 in Hrun.
  destruct (new_crypto w) as [[[]|e] w1|] eqn:E1; [|discriminate|discriminate].
  destruct (new_crypto_valid w _ w1 E1) as (Hs1 & _ & Hk1).
  unfold bindM at 1 in Hrun.
  destruct (setup_master_password fuel w1) as [[[]|e] w2|] eqn:E2;
    [|discriminate|discriminate].
  destruct (setup_master_password_reads fuel w1 _ w2 E2) as [[read2 Hs2] Hk2].
  pose proof (authenticate_from_reads 3 w2 _ w' Hrun) as (_ & _ & read3 & Hs3 & _).
  apply authenticate_from_verified in Hrun as (Hdb & Hk3 & p & Hp & Hver).
  split; [|split].
  - exists (read2 ++ read3). now rewrite <- Hs1, Hs2, Hs3, app_assoc.
  - rewrite Hk3, Hk2. now apply Hk1.
  - exists p. split; [|now rewrite Hdb].
    rewrite <- Hs1, Hs2. apply in_or_app. now right.
Qed.


Lemma main_zero fuel w w' :
  main fuel w = Done (Return tt) w' ->
  exists read, stdin w = read ++ py "0" :: stdin w'.
Proof.
  unfold main. intros Hrun. unfold bindM at 1 in Hrun.
  destruct (PasswordGenerator.init fuel w) as [[[]|e] w1|] eqn:E1;
    [|discriminate|discriminate].
  destruct (init_verified fuel w w1 E1) as ([read1 Hr1] & _).
  destruct (show_menu_zero fuel w1 w' Hrun) as [read2 Hr2].
  exists (read1 ++ read2). now rewrite Hr1, Hr2, app_assoc.
Qed.


(** *** The bound on the loops *)

Lemma below_bind {A B} (m : M A) (k k' : A -> M B) :
  (forall a, below (k a) (k' a)) -> below (bindM m k) (bindM m k').
Proof.
  intros Hk w r w'. unfold bindM.
  destruct (m w) as [[a|e] w1|]; [apply Hk|trivial|trivial].
Qed.

Lemma below_bind_left {A B} (m m' : M A) (k : A -> M B) :
  below m m' -> below (bindM m k) (bindM m' k).
Proof.
  intros Hm w r w'. unfold bindM.
  destruct (m w) as [[a|e] w1|] eqn:E; [| |discriminate].
  - now rewrite (Hm w _ w1 E).
  - now rewrite (Hm w _ w1 E).
Qed.

Lemma below_trans {A} (a b c : M A) : below a b -> below b c -> below a c.
Proof. intros H1 H2 w r w' H. now apply H2, H1. Qed.

Lemma setup_loop_below fuel : forall fuel',
  (fuel <= fuel')%nat -> below (setup_loop fuel) (setup_loop fuel').
Proof.
  induction fuel as [|fuel IH]; intros fuel' Hle; [discriminate|].
  destruct fuel' as [|fuel']; [lia|]. cbn [setup_loop]. unfold setup_round.
  apply below_bind. intros p1. apply below_bind. intros p2.
  destruct (negb (str_eqb p1 []) && str_eqb p1 p2); [now intros ?|].
  apply below_bind. intros _. apply IH. lia.
Qed.

Lemma show_menu_below fuel : forall fuel',
  (fuel <= fuel')%nat -> below (show_menu fuel) (show_menu fuel').
Proof.
  induction fuel as [|fuel IH]; intros fuel' Hle; [discriminate|].
  destruct fuel' as [|fuel']; [lia|]. cbn [show_menu].
  apply below_bind. intros _. apply below_bind. intros choice.
  assert (H : below (show_menu fuel) (show_menu fuel')) by (apply IH; lia).
  unfold dispatch.
  repeat match goal with
         | |- context [if ?b then _ else _] => destruct b
         end;
    first [ now intros ? | apply below_bind; intros _; exact H ].
Qed.

Lemma main_below fuel fuel' :
  (fuel <= fuel')%nat -> below (main fuel) (main fuel').
Proof.
  intros Hle. unfold main, PasswordGenerator.init.
  apply (below_trans _
           ((new_crypto ;;; setup_master_password fuel' ;;; authenticate) ;;;
            show_menu fuel)).
  - apply below_bind_left. apply below_bind. intros _.
    apply below_bind_left. unfold setup_master_password.
    apply below_bind. intros [row|]; [now intros ?|].
    apply below_bind. intros _. now apply setup_loop_below.
  - apply below_bind. intros _. now apply show_menu_below.
Qed.

(** X23: the program ends on every finite input, and the bound given to
    its loops does not matter: with any two bounds above the number of lines
    left to type, the run ends, with the same result and the same world. *)
Theorem main_ends_whatever_the_bound (fuel fuel' : nat) (w : world) :
  (length (stdin w) < fuel)%nat -> (length (stdin w) < fuel')%nat ->
  exists r w',
    main fuel w = Done r w' /\ main fuel' w = Done r w'
    /\ exit_status (main fuel w) <> None.
Proof.
  intros H1 H2.
  destruct (main_enough fuel w H1) as (r & w' & E).
  destruct (main_enough fuel' w H2) as (r' & w'' & E').
  exists r, w'. split; [exact E|]. split; [|rewrite E; now destruct r].
  destruct (Nat.le_ge_cases fuel fuel') as [Hle|Hle].
  - exact (main_below fuel fuel' Hle w r w' E).
  - pose proof (main_below fuel' fuel Hle w r' w'' E') as E2.
    rewrite E in E2. now rewrite E'.
Qed.

(** *** A first run, from nothing to the menu and out *)

Lemma new_crypto_first_run w :
  key_file w = None ->
  new_crypto w
  = Done (Return tt)
      (set_key (Some (generate_key (random_bytes 32 w)))
         (generate_key (random_bytes 32 w)) (advance 32 w)).
Proof.
  intros Hkf. unfold new_crypto, EncryptionManager.init. rewrite Hkf.
  now rewrite (generate_key_valid _ (random_bytes_length 32 w)).
Qed.

(** X24: a first run, from nothing.  With no database and no key file, the
    password typed twice at set-up, once more at the prompt and then "0" take
    the program through to a normal end: a key is generated from 32 random
    bytes, written to the key file and used; the master record that is left
    verifies the password; no credential is stored and the rest of the input
    is not read. *)
Theorem first_run_from_nothing
        (fuel : nat) (p : str) (lines : list str) (rand : nat -> N) (now : N) :
  p <> [] -> encodable p ->
  exists w',
    main (S fuel) (from_nothing p lines rand now) = Done (Return tt) w'
    /\ exit_status (main (S fuel) (from_nothing p lines rand now)) = Some 0
    /\ key_file w'
       = Some (generate_key (random_bytes 32 (from_nothing p lines rand now)))
    /\ key w' = generate_key (random_bytes 32 (from_nothing p lines rand now))
    /\ valid_key (key w') = true
    /\ verify_master_password p (db w') = Return true
    /\ passwords (db w') = []
    /\ stdin w' = lines.
Proof.
  intros Hne Hp. set (w := from_nothing p lines rand now).
  set (k := generate_key (random_bytes 32 w)).
  set (w1 := set_key (Some k) k (advance 32 w)).
  set (w2 := set_up w1 p (p :: py "0" :: lines)).
  set (w3 := set_db CallVerify (db w2)
               (set_stdin (py "0" :: lines) (write password_prompt w2))).
  assert (Hver : verify_master_password p (db w2) = Return true).
  { apply (set_master_password_stored (db w1) p _ Hp (token_encodable _)). }
  assert (Hinit : PasswordGenerator.init (S fuel) w = Done (Return tt) w3).
  { unfold PasswordGenerator.init.
    rewrite (bindM_Return _ _ _ _ _ (new_crypto_first_run w eq_refl)).
    fold k. fold w1.
    rewrite (bindM_Return _ _ _ _ _
               (setup_master_password_first_run fuel w1 p (p :: py "0" :: lines)
                  eq_refl eq_refl Hne Hp)).
    fold w2. unfold authenticate.
    exact (authenticate_accepted 2 w2 p (py "0" :: lines) eq_refl Hver). }
  assert (Hmain : main (S fuel) w
                  = Done (Return tt)
                      (set_stdin lines (write (py "> ") (write menu w3)))).
  { unfold main. rewrite (bindM_Return _ _ _ _ _ Hinit).
    cbn [show_menu]. unfold bindM at 1, print.
    rewrite (bindM_Return _ _ _ _ _
               (input_line _ (write menu w3) (py "0") lines eq_refl)).
    reflexivity. }
  eexists. split; [exact Hmain|]. split; [now rewrite Hmain|].
  split; [reflexivity|]. split; [reflexivity|].
  split; [exact (generate_key_valid _ (random_bytes_length 32 w))|].
  split; [exact Hver|]. split; reflexivity.
Qed.

(** X25: on a finite input that never holds the line "0", the program
    ends with an uncaught exception, status 1 (EOFError at the latest). *)
Theorem without_zero_the_run_ends_with_status_1 (fuel : nat) (w : world) :
  ~ In (py "0") (stdin w) -> (length (stdin w) < fuel)%nat ->
  exists e w', main fuel w = Done (Raise e) w'
               /\ exit_status (main fuel w) = Some 1.
Proof.
  intros Hzero Hlen. destruct (main_enough fuel w Hlen) as ([[]|e] & w' & E).
  - destruct (main_zero fuel w w' E) as [read H]. destruct Hzero.
    rewrite H. apply in_or_app. right. now left.
  - exists e, w'. now rewrite E.
Qed.

(** *** A later run *)

Lemma new_crypto_loads w k :
  key_file w = Some k -> valid_key k = true ->
  new_crypto w = Done (Return tt) (set_key (Some k) k w).
Proof.
  intros Hkf Hk. unfold new_crypto, EncryptionManager.init.
  now rewrite Hkf, Hk.
Qed.

Lemma setup_master_password_later fuel w :
  get_master_password (db w) <> None ->
  setup_master_password fuel w
  = Done (Return tt) (set_db CallGetMaster (db w) w).
Proof.
  intros H. unfold setup_master_password, bindM, on_db.
  now destruct (get_master_password (db w)).
Qed.

Lemma verified_master p d :
  verify_master_password p d = Return true -> get_master_password d <> None.
Proof.
  unfold verify_master_password. now destruct (get_master_password d).
Qed.

(** X26: a credential survives a restart.  What a session stores with a
    valid key that is the key of the key file, a later process started on the
    database and the key file it left shows again: after the master password,
    the choice "2" and the name print the login and the secret, and "0" ends
    the run with status 0. *)
Theorem credential_survives_a_restart
        (fuel : nat) (w : world) (n l p pwd : str) (rest lines : list str)
        (rand' : nat -> N) (now' : N) :
  stdin w = n :: l :: p :: rest ->
  ~ In n (map name (passwords (db w))) ->
  encodable n -> encodable l -> encodable p -> is_str p ->
  valid_key (key w) = true -> key_file w = Some (key w) -> clock w < 2 ^ 64 ->
  verify_master_password pwd (db w) = Return true ->
  exists w1 w2,
    PasswordGenerator.add_password w = Done (Return tt) w1
    /\ main (S (S fuel))
         (start (Some (db w1)) (key_file w1)
            (pwd :: py "2" :: n :: py "0" :: lines) rand' now')
       = Done (Return tt) w2
    /\ output w2
       = [password_prompt; menu; py "> "; name_prompt;
          login_prompt ++ l; secret_prompt ++ p; menu; py "> "]
    /\ stdin w2 = lines
    /\ db w2 = db w1.
Proof.
  intros Hin Hn Hen Hel Hep Hp Hk Hkf Hc Hver.
  destruct (Utf8Facts.encode_Return p Hep) as [b Hb].
  pose proof (add_password_new w n l p rest b Hin Hn Hen Hel Hb) as Hadd.
  set (token := fernet_encrypt (key w) (clock w) (random_bytes 16 w) b) in Hadd.
  set (d1 := inserted n l token (db w)) in Hadd.
  match type of Hadd with _ = Done _ ?x => set (w1 := x) in Hadd end.
  exists w1. eexists. split; [exact Hadd|].
  set (s0 := start (Some (db w1)) (key_file w1)
                (pwd :: py "2" :: n :: py "0" :: lines) rand' now').
  set (s1 := set_key (Some (key w)) (key w) s0).
  set (s2 := set_db CallGetMaster d1 s1).
  set (s3 := set_db CallVerify d1
               (set_stdin (py "2" :: n :: py "0" :: lines)
                  (write password_prompt s2))).
  assert (Hver1 : verify_master_password pwd d1 = Return true).
  { now rewrite (verify_same_master (db w) d1 pwd eq_refl). }
  assert (Hinit : PasswordGenerator.init (S (S fuel)) s0 = Done (Return tt) s3).
  { unfold PasswordGenerator.init.
    rewrite (bindM_Return _ _ _ _ _ (new_crypto_loads s0 (key w) Hkf Hk)).
    fold s1.
    rewrite (bindM_Return _ _ _ _ _
               (setup_master_password_later (S (S fuel)) s1
                  (verified_master pwd d1 Hver1))).
    unfold authenticate.
    exact (authenticate_accepted 2 s2 pwd (py "2" :: n :: py "0" :: lines)
             eq_refl Hver1). }
  set (s4 := set_stdin (n :: py "0" :: lines) (write (py "> ") (write menu s3))).
  assert (Hget : PasswordGenerator.get_password s4
                 = Done (Return tt)
                     (write (secret_prompt ++ p)
                        (write (login_prompt ++ l)
                           (set_db (CallGet n) d1
                              (set_stdin (py "0" :: lines)
                                 (write name_prompt s4)))))).
  { exact (get_password_stored s4 n (py "0" :: lines) _ b p eq_refl
             (get_password_inserted (db w) n l token Hn Hen)
             (decrypt_encrypt (key w) (clock w) (random_bytes 16 w) b Hk
                (random_bytes_length 16 w) Hc)
             (Utf8Facts.decode_encode p b Hp Hb)). }
  split; [|split; [|split]].
  - unfold main. rewrite (bindM_Return _ _ _ _ _ Hinit).
    cbn [show_menu]. unfold bindM at 1, print.
    rewrite (bindM_Return _ _ _ _ _
               (input_line _ (write menu s3) (py "2") (n :: py "0" :: lines)
                  eq_refl)).
    fold s4. unfold dispatch.
    change (str_eqb (py "2") (py "1")) with false.
    change (str_eqb (py "2") (py "2")) with true. cbv iota.
    rewrite (bindM_Return _ _ _ _ _ Hget).
    unfold bindM at 1, print.
    match goal with
    | |- context [bindM (input ?q) ?k ?w5] =>
        rewrite (bindM_Return _ k _ _ _ (input_line q w5 (py "0") lines eq_refl))
    end.
    reflexivity.
  - reflexivity.
  - reflexivity.
  - reflexivity.
Qed.

End WithFernet.

Lemma show_menu_keeps_master_record_and_key_witness :
  get_master_password (db busy_at_the_end)
  = get_master_password (db busy_at_the_menu)
  /\ (forall p, verify_master_password p (db busy_at_the_end)
                = verify_master_password p (db busy_at_the_menu))
  /\ key busy_at_the_end = key busy_at_the_menu
  /\ key_file busy_at_the_end = key_file busy_at_the_menu
  /\ (unique_names (db busy_at_the_menu) -> unique_names (db busy_at_the_end))
  /\ (exists read, stdin busy_at_the_menu = read ++ stdin busy_at_the_end)
  /\ (exists printed,
        output busy_at_the_end = output busy_at_the_menu ++ printed).
Proof.
  apply (show_menu_keeps_master_record_and_key (F := reference) 12
           busy_at_the_menu busy_at_the_end (Return tt)).
  vm_compute. reflexivity.
Defined.

Lemma show_menu_returns_only_after_zero_witness :
  (exists read, stdin busy_at_the_menu = read ++ py "0" :: stdin busy_at_the_end)
  /\ In (py "0") (stdin busy_at_the_menu)
  /\ exit_status (show_menu 12 busy_at_the_menu) = Some 0.
Proof.
  apply (show_menu_returns_only_after_zero (F := reference) 12
           busy_at_the_menu busy_at_the_end).
  vm_compute. reflexivity.
Defined.



Lemma main_ends_whatever_the_bound_witness :
  exists r w',
    main 12 busy = Done r w' /\ main 40 busy = Done r w'
    /\ exit_status (main 12 busy) <> None.
Proof.
  apply (main_ends_whatever_the_bound (F := reference) 12 40 busy).
  - cbn. lia.
  - cbn. lia.
Defined.

Lemma first_run_from_nothing_witness :
  exists w',
    main 1 (from_nothing sunflower [py "never read"] (fun _ => 0) 1700000000)
    = Done (Return tt) w'
    /\ exit_status
         (main 1 (from_nothing sunflower [py "never read"] (fun _ => 0)
                    1700000000))
       = Some 0
    /\ key_file w'
       = Some (generate_key
                 (random_bytes 32
                    (from_nothing sunflower [py "never read"] (fun _ => 0)
                       1700000000)))
    /\ key w'
       = generate_key
           (random_bytes 32
              (from_nothing sunflower [py "never read"] (fun _ => 0) 1700000000))
    /\ valid_key (key w') = true
    /\ verify_master_password sunflower (db w') = Return true
    /\ passwords (db w') = []
    /\ stdin w' = [py "never read"].
Proof.
  apply (first_run_from_nothing (F := reference) 0 sunflower [py "never read"]
           (fun _ => 0) 1700000000).
  - discriminate.
  - repeat constructor.
Defined.

Lemma without_zero_the_run_ends_with_status_1_witness :
  exists e w',
    main 5 (session [py "a"; sunflower; py "3"; py "9"]) = Done (Raise e) w'
    /\ exit_status (main 5 (session [py "a"; sunflower; py "3"; py "9"]))
       = Some 1.
Proof.
  apply (without_zero_the_run_ends_with_status_1 (F := reference) 5
           (session [py "a"; sunflower; py "3"; py "9"])).
  - intros [H|[H|[H|[H|[]]]]]; discriminate.
  - cbn. lia.
Defined.

Lemma credential_survives_a_restart_witness :
  exists w1 w2,
    PasswordGenerator.add_password
      (opened [py "gitlab"; py "bob"; py "p@ss"; py "0"])
    = Done (Return tt) w1
    /\ main 2
         (start (Some (db w1)) (key_file w1)
            [sunflower; py "2"; py "gitlab"; py "0"; py "never read"]
            (fun _ => 7) 1800000000)
       = Done (Return tt) w2
    /\ output w2
       = [password_prompt; menu; py "> "; name_prompt;
          login_prompt ++ py "bob"; secret_prompt ++ py "p@ss"; menu; py "> "]
    /\ stdin w2 = [py "never read"]
    /\ db w2 = db w1.
Proof.
  apply (credential_survives_a_restart (F := reference) 0
           (opened [py "gitlab"; py "bob"; py "p@ss"; py "0"])
           (py "gitlab") (py "bob") (py "p@ss") sunflower [py "0"]
           [py "never read"] (fun _ => 7) 1800000000).
  - reflexivity.
  - vm_compute. intros [H|[]]. discriminate.
  - repeat constructor.
  - repeat constructor.
  - repeat constructor.
  - repeat constructor; vm_compute; discriminate.
  - reflexivity.
  - reflexivity.
  - reflexivity.
  - vm_compute. reflexivity.
Defined.

End RunInvariants.
